(** * scrape.py: the cafeteria-menu scraper, embedded and verified

    The development follows [src/scrape.py].  Python strings are lists of
    Unicode code points, dates are proleptic Gregorian ordinals, the
    generator [daterange] is a small step machine, and the body of
    [scrape] is written in a state-and-exception monad over the file
    system and the log of HTTP requests.  The results of the
    BeautifulSoup queries the program issues are the fields of the
    records [h2_tag] and [card]; the library functions it calls
    (Unicode tables, [slugify], [urljoin], [urlparse]) are the fields of
    the class [Libs]. *)

From Stdlib Require Import ZArith NArith List Lia Bool String Ascii Sorted.
From Stdlib Require Import DecimalString.
From Stdlib.Strings Require Import Byte.
From stdpp Require Import gmap list.

Open Scope N_scope.

(* ================================================================= *)
(** ** Python [str]: sequences of code points *)

Module Text.

(** A code point, [0 .. 0x10FFFF]. *)
Definition char := N.
Definition str := list char.

(** An ASCII literal as a [str]. *)
Definition u (s : string) : str :=
  List.map N_of_ascii (list_ascii_of_string s).

Definition SPACE : char := 0x20.
Definition COMMA : char := 0x2C.
Definition SEMICOLON : char := 0x3B.
Definition NEWLINE : char := 0x0A.

Definition in_range (lo hi c : char) : bool := (lo <=? c) && (c <=? hi).

(** [str.isspace] on one code point, which is also what [\s] matches in
    a [str] pattern: the complete table of CPython's
    [_PyUnicode_IsWhitespace]. *)
Definition is_space (c : char) : bool :=
  in_range 0x09 0x0D c || in_range 0x1C 0x1F c || (c =? 0x20)
  || (c =? 0x85) || (c =? 0xA0) || (c =? 0x1680)
  || in_range 0x2000 0x200A c || (c =? 0x2028) || (c =? 0x2029)
  || (c =? 0x202F) || (c =? 0x205F) || (c =? 0x3000).

Definition is_ascii (c : char) : bool := c <? 0x80.

Fixpoint drop_while (p : char -> bool) (s : str) : str :=
  match s with
  | [] => []
  | c :: s' => if p c then drop_while p s' else s
  end.

(** [s.lstrip()], [s.rstrip()], [s.strip()]. *)
Definition lstrip (s : str) : str := drop_while is_space s.
Definition rstrip (s : str) : str := rev (drop_while is_space (rev s)).
Definition strip (s : str) : str := rstrip (lstrip s).

(** [re.sub(r"\s+", " ", s)]: every maximal run of white space becomes
    one space.  [in_run] says that the previous character belonged to
    the run being replaced. *)
Fixpoint sub_ws_go (in_run : bool) (s : str) : str :=
  match s with
  | [] => []
  | c :: s' =>
      if is_space c
      then (if in_run then sub_ws_go true s' else SPACE :: sub_ws_go true s')
      else c :: sub_ws_go false s'
  end.

Definition sub_ws (s : str) : str := sub_ws_go false s.

(** [s.startswith(p)]. *)
Fixpoint startswith (p s : str) : bool :=
  match p, s with
  | [], _ => true
  | _ :: _, [] => false
  | a :: p', b :: s' => (a =? b) && startswith p' s'
  end.

(** [s.replace(old, new)]: non-overlapping occurrences, left to right.
    [skip] counts the characters of an occurrence still to be passed
    over. *)
Fixpoint replace_go (old new : str) (skip : nat) (s : str) : str :=
  match s with
  | [] => []
  | c :: s' =>
      match skip with
      | S k => replace_go old new k s'
      | O =>
          if startswith old s
          then new ++ replace_go old new (Nat.pred (length old)) s'
          else c :: replace_go old new 0 s'
      end
  end.

Definition replace (old new s : str) : str :=
  match old with
  | [] => new ++ flat_map (fun c => c :: new) s
  | _ :: _ => replace_go old new 0 s
  end.

(** [sep.join(parts)]. *)
Fixpoint join (sep : str) (parts : list str) : str :=
  match parts with
  | [] => []
  | [p] => p
  | p :: ps => p ++ sep ++ join sep ps
  end.

(** [s.split(sep)] for a one-character separator: never empty. *)
Fixpoint split_on (sep : char) (s : str) : list str :=
  match s with
  | [] => [[]]
  | c :: s' =>
      if c =? sep then [] :: split_on sep s'
      else match split_on sep s' with
           | [] => [[c]]
           | w :: ws => (c :: w) :: ws
           end
  end.

(** [s.split()]: the maximal runs of non-white-space characters. *)
Fixpoint split_ws_go (cur : option str) (s : str) : list str :=
  match s with
  | [] => match cur with Some w => [rev w] | None => [] end
  | c :: s' =>
      if is_space c
      then match cur with
           | Some w => rev w :: split_ws_go None s'
           | None => split_ws_go None s'
           end
      else split_ws_go (Some (c :: default [] cur)) s'
  end.

Definition split_ws (s : str) : list str := split_ws_go None s.

(** [needle in s]. *)
Fixpoint contains (needle s : str) : bool :=
  startswith needle s ||
  match s with
  | [] => false
  | _ :: s' => contains needle s'
  end.

(** A literal ASCII character of a pattern compiled with [re.I], against
    a character of the subject.  Besides the two cases of the letter,
    [i] also matches U+0130 and U+0131, [k] matches U+212A and [s]
    matches U+017F. *)
Definition lower_ascii (c : char) : char :=
  if in_range 0x41 0x5A c then c + 0x20 else c.

Definition ci_char (p c : char) : bool :=
  let p := lower_ascii p in
  (lower_ascii c =? p)
  || ((p =? 0x69) && ((c =? 0x130) || (c =? 0x131)))
  || ((p =? 0x6B) && (c =? 0x212A))
  || ((p =? 0x73) && (c =? 0x17F)).

(** The literal [p], case-insensitively, at the start of [s]: the rest
    of [s] after it. *)
Fixpoint ci_prefix (p s : str) : option str :=
  match p, s with
  | [], _ => Some s
  | _ :: _, [] => None
  | a :: p', b :: s' => if ci_char a b then ci_prefix p' s' else None
  end.

End Text.

(* ================================================================= *)
(** ** [datetime.date], [timedelta] and the generator [daterange] *)

Module Dates.

Import Text.
Local Open Scope Z_scope.

(** A [date] is its proleptic Gregorian ordinal ([date.toordinal()]):
    comparison of dates is comparison of ordinals, and [date + timedelta]
    is computed on ordinals.  [date.min] is day 1, [date.max] is
    9999-12-31. *)
Definition date := Z.
Definition MINORDINAL : Z := 1.
Definition MAXORDINAL : Z := 3652059.

Definition valid (d : date) : Prop := MINORDINAL <= d <= MAXORDINAL.

(** A [timedelta], in whole days. *)
Definition timedelta := Z.

(** [d + t]; [None] is [OverflowError: date value out of range]. *)
Definition date_add (d : date) (t : timedelta) : option date :=
  let o := d + t in
  if (0 <? o) && (o <=? MAXORDINAL) then Some o else None.

(** The generator object of [daterange(start, stop)].  [Created]: the
    body has not run yet.  [Suspended step stop d]: paused at [yield d].
    [Finished]: the body has returned or raised. *)
Inductive generator :=
| Created (start stop : date)
| Suspended (step : timedelta) (stop d : date)
| Finished.

Inductive resumed :=
| Yield (d : date) (g : generator)
| StopIteration
| OverflowError.

(** One [next(g)]. *)
Definition next (g : generator) : resumed :=
  match g with
  | Created start stop =>
      let step := 1 * (if start <=? stop then 1 else -1) in
      Yield start (Suspended step stop start)
  | Suspended step stop d =>
      if d =? stop then StopIteration
      else match date_add d step with
           | Some d' => Yield d' (Suspended step stop d')
           | None => OverflowError
           end
  | Finished => StopIteration
  end.

(** What a [for] loop sees of a generator: the dates yielded, and how
    the iteration ended.  [Unfinished]: the fuel ran out first. *)
Inductive drained :=
| Complete (ds : list date)
| Overflowed (ds : list date)
| Unfinished (ds : list date).

Definition yielded (r : drained) : list date :=
  match r with Complete ds | Overflowed ds | Unfinished ds => ds end.

Definition push (d : date) (r : drained) : drained :=
  match r with
  | Complete ds => Complete (d :: ds)
  | Overflowed ds => Overflowed (d :: ds)
  | Unfinished ds => Unfinished (d :: ds)
  end.

Fixpoint drain (fuel : nat) (g : generator) : drained :=
  match fuel with
  | O => Unfinished []
  | S fuel' =>
      match next g with
      | Yield d g' => push d (drain fuel' g')
      | StopIteration => Complete []
      | OverflowError => Overflowed []
      end
  end.

(** The number of days between the endpoints, both included. *)
Definition span_days (start stop : date) : nat := S (Z.to_nat (Z.abs (stop - start))).

(** [daterange(start, stop)], iterated to its end: [span_days] resumptions
    yield, one more ends the iteration. *)
Definition daterange (start stop : date) : drained :=
  drain (S (span_days start stop)) (Created start stop).

(** [datetime._ord2ymd]. *)
Definition DAYS_IN_MONTH (m : Z) : Z :=
  nth (Z.to_nat m) [-1; 31; 28; 31; 30; 31; 30; 31; 31; 30; 31; 30; 31] 0.
Definition DAYS_BEFORE_MONTH (m : Z) : Z :=
  nth (Z.to_nat m) [-1; 0; 31; 59; 90; 120; 151; 181; 212; 243; 273; 304; 334] 0.

Definition b2z (b : bool) : Z := if b then 1 else 0.

Definition ord2ymd (n : Z) : Z * Z * Z :=
  let n := n - 1 in
  let n400 := n / 146097 in
  let n := n mod 146097 in
  let year := n400 * 400 + 1 in
  let n100 := n / 36524 in
  let n := n mod 36524 in
  let n4 := n / 1461 in
  let n := n mod 1461 in
  let n1 := n / 365 in
  let n := n mod 365 in
  let year := year + (n100 * 100 + n4 * 4 + n1) in
  if (n1 =? 4) || (n100 =? 4) then (year - 1, 12, 31)
  else
    let leapyear := (n1 =? 3) && (negb (n4 =? 24) || (n100 =? 3)) in
    let month := Z.shiftr (n + 50) 5 in
    let preceding := DAYS_BEFORE_MONTH month + b2z ((2 <? month) && leapyear) in
    if n <? preceding
    then
      let month := month - 1 in
      let preceding :=
        preceding - (DAYS_IN_MONTH month + b2z ((month =? 2) && leapyear)) in
      (year, month, n - preceding + 1)
    else (year, month, n - preceding + 1).

Definition digit (n k : Z) : char := Z.to_N (48 + (n / k) mod 10).

(** [day.isoformat()]: ["%04d-%02d-%02d"]. *)
Definition isoformat (d : date) : str :=
  let '(y, m, dd) := ord2ymd d in
  [digit y 1000; digit y 100; digit y 10; digit y 1; 0x2D%N;
   digit m 10; digit m 1; 0x2D%N; digit dd 10; digit dd 1].

End Dates.

Import Text Dates.

(* ================================================================= *)
(** ** The library functions the program calls *)

(** Tables and functions of the Python libraries that [scrape.py] calls
    and does not define.  [None] stands for the [ValueError] that
    [urllib.parse] raises on a URL it cannot split. *)
Class Libs := {
  (** [unicodedata.normalize("NFKD", text)] *)
  nfkd : str -> str;
  (** [chr(c).isalnum()] for a code point outside ASCII *)
  uni_alnum : char -> bool;
  (** [slugify(text)] *)
  slugify : str -> str;
  (** [urljoin(base, url)] *)
  urljoin : str -> str -> option str;
  (** [Path(urlparse(url).path).suffix] *)
  url_suffix : str -> option str
}.

(* ================================================================= *)
(** ** [squash] *)

Module Squash.

(** [text.encode("ascii", "ignore")]: the code points below 128, as
    bytes; every other code point is dropped. *)
Definition encode_ascii_ignore (s : str) : list byte :=
  omap (fun c => if is_ascii c then Byte.of_N c else None) s.

Definition cont (b : byte) : bool := in_range 0x80 0xBF (Byte.to_N b).
Definition payload (b : byte) : N := Byte.to_N b - 0x80.

(** [bytes.decode()]: strict UTF-8.  [None] is [UnicodeDecodeError]. *)
Fixpoint utf8_decode (bs : list byte) : option str :=
  match bs with
  | [] => Some []
  | b0 :: r0 =>
      let n0 := Byte.to_N b0 in
      if n0 <? 0x80 then cons n0 <$> utf8_decode r0
      else if in_range 0xC2 0xDF n0 then
        match r0 with
        | b1 :: r1 =>
            if cont b1
            then cons ((n0 - 0xC0) * 64 + payload b1) <$> utf8_decode r1
            else None
        | _ => None
        end
      else if in_range 0xE0 0xEF n0 then
        match r0 with
        | b1 :: b2 :: r2 =>
            let lo := if n0 =? 0xE0 then 0xA0 else 0x80 in
            let hi := if n0 =? 0xED then 0x9F else 0xBF in
            if in_range lo hi (Byte.to_N b1) && cont b2
            then cons ((n0 - 0xE0) * 4096 + payload b1 * 64 + payload b2)
                   <$> utf8_decode r2
            else None
        | _ => None
        end
      else if in_range 0xF0 0xF4 n0 then
        match r0 with
        | b1 :: b2 :: b3 :: r3 =>
            let lo := if n0 =? 0xF0 then 0x90 else 0x80 in
            let hi := if n0 =? 0xF4 then 0x8F else 0xBF in
            if in_range lo hi (Byte.to_N b1) && cont b2 && cont b3
            then cons ((n0 - 0xF0) * 262144 + payload b1 * 4096
                       + payload b2 * 64 + payload b3)
                   <$> utf8_decode r3
            else None
        | _ => None
        end
      else None
  end.

(** [squash(text)]: ASCII-fold and collapse white space. *)
Definition squash `{Libs} (text : str) : option str :=
  decoded ← utf8_decode (encode_ascii_ignore (nfkd text));
  Some (strip (sub_ws decoded)).

End Squash.
Import Squash.

(* ================================================================= *)
(** ** The three regular expressions *)

Module Patterns.

Definition is_some {A} (o : option A) : bool :=
  match o with Some _ => true | None => false end.

(** [re.match(r"^(beilagensalat|regio[- ]?apfel)", ln, re.I)] *)
Definition boilerplate (ln : str) : bool :=
  is_some (ci_prefix (u "beilagensalat") ln) ||
  match ci_prefix (u "regio") ln with
  | Some rest =>
      match rest with
      | c :: rest' =>
          ((c =? 0x2D) || (c =? 0x20)) && is_some (ci_prefix (u "apfel") rest')
      | [] => false
      end || is_some (ci_prefix (u "apfel") rest)
  | None => false
  end.

(** [\w] on one character of a [str]. *)
Definition is_word `{Libs} (c : char) : bool :=
  if is_ascii c
  then in_range 0x30 0x39 c || in_range 0x41 0x5A c
       || in_range 0x61 0x7A c || (c =? 0x5F)
  else uni_alnum c.

(** [\b] between the characters [prev] and [next]; [None] is an end of
    the string. *)
Definition word_boundary `{Libs} (prev next : option char) : bool :=
  xorb (from_option is_word false prev) (from_option is_word false next).

(** [re.compile(r"\bMensa\b", re.I).search(s)]; [prev] is the character
    before [s]. *)
Fixpoint search_mensa `{Libs} (prev : option char) (s : str) : bool :=
  match s with
  | [] => false
  | c :: s' =>
      (word_boundary prev (Some c) &&
       match ci_prefix (u "Mensa") s with
       | Some rest => word_boundary (Some 0x61) (head rest)
       | None => false
       end)
      || search_mensa (Some c) s'
  end.

Definition is_quote (c : char) : bool := (c =? 0x22) || (c =? 0x27).

(** The style pattern is [url\(Q?(.*?)Q?\)], where [Q] is the class of
    the single and the double quote.  This is its tail [(.*?)Q?\)]: the
    shortest run of characters other than a newline that an optional
    quote and a closing parenthesis follow. *)
Fixpoint lazy_group (s : str) : option str :=
  match s with
  | [] => None
  | c :: s' =>
      if c =? 0x29 then Some []
      else if is_quote c && startswith [0x29] s' then Some []
      else if c =? NEWLINE then None
      else cons c <$> lazy_group s'
  end.

(** The pattern after [url\(]: the optional opening quote is taken
    when it is there, and given back when nothing matches behind it. *)
Definition url_group (s : str) : option str :=
  match s with
  | c :: s' =>
      if is_quote c
      then match lazy_group s' with
           | Some g => Some g
           | None => lazy_group s
           end
      else lazy_group s
  | [] => None
  end.

(** [re.search(pattern, style)] for the style pattern: [group(1)] of
    the leftmost match. *)
Fixpoint search_css_url (s : str) : option str :=
  match s with
  | [] => None
  | _ :: s' =>
      match (if startswith (u "url(") s then url_group (drop 4 s) else None) with
      | Some g => Some g
      | None => search_css_url s'
      end
  end.

End Patterns.
Import Patterns.


(* ================================================================= *)
(** ** What BeautifulSoup returns *)

Module Html.

(** One dish card, [card] in [for card in container.find_all("a",
    href=True)], as the answers to the five queries the loop body makes.
    An element whose text is read is given by its [stripped_strings]. *)
Record card := {
  (** [card.select_one("div.text-sm > p")] *)
  p_tag : option (list str);
  (** [card.select("div.inline-flex")], in document order *)
  inline_flex : list (list str);
  (** [card.find("span")] *)
  span : option (list str);
  (** [card.find("img")]: the attributes of the tag *)
  img_tag : option (gmap str str);
  (** [card.select_one("div[style*=background-image]")]: its
      [style] attribute *)
  bg : option str
}.

(** One [h2] element of the page. *)
Record h2_tag := {
  (** [h2.string], which the [string=] filter of [find_all] tests *)
  h2_string : option str;
  (** [h2.get_text()] *)
  h2_text : str;
  (** [h2.find_next("div")], as its [find_all("a", href=True)] *)
  find_next_div : option (list card)
}.

(** A parsed page: its [h2] elements in document order. *)
Definition soup := list h2_tag.

(** [tag.get_text(sep, strip=True)] *)
Definition get_text (sep : str) (strings : list str) : str := join sep strings.

End Html.
Import Html.

(* ================================================================= *)
(** ** Paths, the file system, the network *)

Module Sys.

(** A [pathlib] path, as the list of its parts. *)
Definition Path := list str.

Definition str_eqb (a b : str) : bool :=
  (length a =? length b)%nat && startswith a b.

(** [str(path)]: the parts joined by slashes, after the root when the
    first part is one ([/], or [//], which POSIX keeps apart). *)
Definition path_str (p : Path) : str :=
  match p with
  | [] => u "."
  | r :: ps =>
      if str_eqb r (u "/") || str_eqb r (u "//") then r ++ join (u "/") ps
      else join (u "/") p
  end.

(** [path / name], for a [name] that is one relative part. *)
Definition div (p : Path) (name : str) : Path := p ++ [name].

(** What became of one [requests.get(img_url, timeout=20);
    r.raise_for_status(); fpath.write_bytes(r.content)]. *)
Inductive download :=
| Fetched (content : list byte)
    (** the body arrived and was written *)
| RequestFailed
    (** [get] or [raise_for_status] raised *)
| WriteFailed (left : option (list byte)).
    (** [write_bytes] raised; [left] is what it left at [fpath] *)

(** The surroundings of one run. *)
Record World := {
  (** [page.goto(url, ...)] then [BeautifulSoup(page.content())]:
      [None] when the navigation raised; [Some page] when the
      navigation, the wait and [page.content()] went through, [page]
      being the parsed content *)
  render : str -> option soup;
  (** the outcome of the [n]-th download of the run, for its URL and
      destination *)
  get : nat -> str -> Path -> download;
  (** whether the system lets [path.mkdir(parents=True, exist_ok=True)]
      through (permissions, room on the disk, a medium that can be
      written) once [n] downloads have been attempted; a file that is
      in the way is seen in the state, not here *)
  mkdir : nat -> Path -> bool
}.

(** The mutable state of a run: the files under [out_dir], and the
    downloads attempted so far, oldest first. *)
Record state := {
  fs : gmap Path (list byte);
  requests : list (str * Path)
}.

(** The exceptions that leave [scrape]; [OSError] is what [mkdir]
    raises ([FileExistsError], [NotADirectoryError], [PermissionError]
    and the like). *)
Inductive exn := IndexError | ValueError | Overflow | UnicodeDecodeError | OSError.

Inductive result (A : Type) :=
| Ok (a : A)
| Raise (e : exn).
Arguments Ok {A} a.
Arguments Raise {A} e.

(** Computations that read and write the state and may raise. *)
Definition M (A : Type) : Type := state -> result A * state.

Definition ret {A} (a : A) : M A := fun st => (Ok a, st).
Definition raise {A} (e : exn) : M A := fun st => (Raise e, st).
Definition bind {A B} (m : M A) (k : A -> M B) : M B :=
  fun st =>
    match m st with
    | (Ok a, st') => k a st'
    | (Raise e, st') => (Raise e, st')
    end.
Definition lift {A} (r : result A) : M A := fun st => (r, st).

(** A library call that may raise [e]. *)
Definition or_raise {A} (e : exn) (o : option A) : result A :=
  match o with Some a => Ok a | None => Raise e end.

Definition rbind {A B} (r : result A) (k : A -> result B) : result B :=
  match r with Ok a => k a | Raise e => Raise e end.

End Sys.
Import Sys.

Declare Scope py_scope.
Delimit Scope py_scope with py.
Notation "'let*' x ':=' m 'in' k" := (bind m (fun x => k))
  (at level 10, x name, m at level 100, k at level 200) : py_scope.
Notation "'let?' x ':=' r 'in' k" := (rbind r (fun x => k))
  (at level 10, x name, r at level 100, k at level 200) : py_scope.
Open Scope py_scope.

(* ================================================================= *)
(** ** [scrape] *)

Module Scraper.

Definition BASE : str := u "https://mensa.fachschaft.tf/".

(** [DAY_URL.format(iso)] *)
Definition DAY_URL (iso : str) : str := BASE ++ u "?date=" ++ iso.

(** A row of the table, a Python list of strings. *)
Definition row := list str.

(** [s.replace(",", " ").replace(";", " ")] *)
Definition strip_delims (s : str) : str :=
  replace [SEMICOLON] [SPACE] (replace [COMMA] [SPACE] s).

(** The truth value of something that is a [str] or [None]. *)
Definition truthy (v : option str) : bool :=
  match v with
  | Some (_ :: _) => true
  | _ => false
  end.

(** [xs[0]] *)
Definition index0 {A} (xs : list A) : result A := or_raise IndexError (head xs).

Section WithLibs.
Context `{Libs}.

(** 1 - description, lines 63-74.  [Ok None] is [continue]. *)
Definition description_of (c : card) : result (option str) :=
  match p_tag c with
  | None => Ok None
  | Some strings =>
      let lines :=
        List.map strip (List.filter (fun ln => negb (boilerplate ln)) strings) in
      match lines with
      | [] => Ok None
      | _ :: _ =>
          let description :=
            replace (u "-------------") (u " ") (join (u " ") lines) in
          let description := strip_delims description in
          let? description := or_raise UnicodeDecodeError (squash description) in
          Ok (Some description)
      end
  end.

(** 2 - diet badge, lines 77-82. *)
Definition diet_of (c : card) : str :=
  strip_delims
    match List.find (fun t => truthy (Some (get_text [] t))) (inline_flex c) with
    | Some t => get_text (u " ") t
    | None => u "Nicht-vegetarisch"
    end.

(** 3 - type label, lines 85-88. *)
Definition dish_type_of (c : card) : str :=
  strip_delims
    match span c with
    | Some t => get_text (u " ") t
    | None => u "meal"
    end.

(** 4 - image URL, lines 94-99: the [or] chain over the attributes of
    the [img] tag. *)
Definition img_attr_url (a : gmap str str) : result (option str) :=
  if truthy (a !! u "src") then Ok (a !! u "src")
  else if truthy (a !! u "data-src") then Ok (a !! u "data-src")
  else if truthy (a !! u "srcset") then
    let? entry := index0 (split_on COMMA (default [] (a !! u "srcset"))) in
    let? token := index0 (split_ws entry) in
    Ok (Some token)
  else Ok None.

(** Lines 101-105: the background image of the style attribute;
    [img_url] stays as it is when nothing is found. *)
Definition bg_url (img_url : option str) (c : card) : option str :=
  match bg c with
  | Some style =>
      if contains (u "background-image") style
      then match search_css_url style with
           | Some g => Some g
           | None => img_url
           end
      else img_url
  | None => img_url
  end.

(** Lines 91-108.  [Ok None] is [continue]. *)
Definition image_url_of (c : card) : result (option str) :=
  let? img_url :=
    match img_tag c with
    | Some a => img_attr_url a
    | None => Ok None
    end in
  let img_url := if truthy img_url then img_url else bg_url img_url c in
  match img_url with
  | Some ((_ :: _) as url) =>
      let? img_url := or_raise ValueError (urljoin BASE url) in
      Ok (Some img_url)
  | _ => Ok None
  end.

(** Line 113: [Path(urlparse(img_url).path).suffix or ".jpg"]. *)
Definition ext_of (img_url : str) : result str :=
  let? suffix := or_raise ValueError (url_suffix img_url) in
  Ok (if truthy (Some suffix) then suffix else u ".jpg").

(** A file where the folder [path] or a folder above it should be. *)
Definition in_the_way (files : gmap Path (list byte)) (path : Path) : bool :=
  existsb (fun k => is_some (files !! take k path)) (seq 1 (length path)).

(** Line 112: [day_dir.mkdir(parents=True, exist_ok=True)], which is
    outside every [try].  It raises when a file is in the way and when
    the system refuses; a folder that is there already is no error. *)
Definition make_dir (w : World) (day_dir : Path) : M unit :=
  fun st =>
    if in_the_way (fs st) day_dir then (Raise OSError, st)
    else if mkdir w (length (requests st)) day_dir then (Ok tt, st)
    else (Raise OSError, st).

(** Lines 113-115: the file in [day_dir] that the image goes to. *)
Definition file_in (day_dir : Path) (mensa dish_type img_url : str) : result Path :=
  let? ext := ext_of img_url in
  let fname := slugify mensa ++ u "_" ++ slugify dish_type ++ ext in
  Ok (div day_dir fname).

(** Lines 111-115: the folder of the day is made, then the file is
    named. *)
Definition destination (w : World) (out_dir : Path) (day : date)
    (mensa dish_type img_url : str) : M Path :=
  let day_dir := div out_dir (isoformat day) in
  let* _ := make_dir w day_dir in
  lift (file_in day_dir mensa dish_type img_url).

(** 5 - download (once), lines 116-121.  [false] is the [continue] of
    the [except] branch. *)
Definition fetch (w : World) (img_url : str) (fpath : Path) : M bool :=
  fun st =>
    match fs st !! fpath with
    | Some _ => (Ok true, st)
    | None =>
        let log := requests st ++ [(img_url, fpath)] in
        match get w (length (requests st)) img_url fpath with
        | Fetched content =>
            (Ok true, {| fs := <[fpath := content]> (fs st); requests := log |})
        | RequestFailed =>
            (Ok false, {| fs := fs st; requests := log |})
        | WriteFailed (Some content) =>
            (Ok false, {| fs := <[fpath := content]> (fs st); requests := log |})
        | WriteFailed None =>
            (Ok false, {| fs := fs st; requests := log |})
        end
    end.

(** The body of the loop over the cards, lines 62-132: the row to
    append, or [None] for [continue]. *)
Definition process_card (w : World) (out_dir : Path) (day : date) (mensa : str)
    (c : card) : M (option row) :=
  let* description := lift (description_of c) in
  match description with
  | None => ret None
  | Some description =>
      let diet := diet_of c in
      let dish_type := dish_type_of c in
      let* img_url := lift (image_url_of c) in
      match img_url with
      | None => ret None
      | Some img_url =>
          let* fpath := destination w out_dir day mensa dish_type img_url in
          let* ok := fetch w img_url fpath in
          if ok
          then ret (Some [description; u "no"; u "no"; dish_type; diet; mensa;
                          path_str fpath])
          else ret None
      end
  end.

(** A [for] loop whose body may append to [rows]. *)
Fixpoint for_each {A} (body : A -> list row -> M (list row)) (xs : list A)
    (rows : list row) : M (list row) :=
  match xs with
  | [] => ret rows
  | x :: xs' => let* rows := body x rows in for_each body xs' rows
  end.

Definition card_body (w : World) (out_dir : Path) (day : date) (mensa : str)
    (c : card) (rows : list row) : M (list row) :=
  let* r := process_card w out_dir day mensa c in
  ret (match r with Some r => rows ++ [r] | None => rows end).

(** The [string=] filter of [soup.find_all("h2", string=...)]. *)
Definition h2_selected (h : h2_tag) : bool :=
  match h2_string h with
  | Some s => search_mensa None s
  | None => false
  end.

(** Line 56. *)
Definition mensa_of (h : h2_tag) : result str :=
  let? name := or_raise UnicodeDecodeError (squash (h2_text h)) in
  Ok (strip_delims name).

(** The body of the loop over the headings, lines 56-132. *)
Definition heading_body (w : World) (out_dir : Path) (day : date)
    (h2 : h2_tag) (rows : list row) : M (list row) :=
  let* mensa := lift (mensa_of h2) in
  match find_next_div h2 with
  | None => ret rows
  | Some cards => for_each (card_body w out_dir day mensa) cards rows
  end.

(** The body of the loop over the days, lines 46-132. *)
Definition day_body (w : World) (out_dir : Path) (day : date)
    (rows : list row) : M (list row) :=
  match render w (DAY_URL (isoformat day)) with
  | None => ret rows
  | Some page => for_each (heading_body w out_dir day) (List.filter h2_selected page) rows
  end.

(** [scrape(start, stop, out_dir)], with the browser started and
    closed without error.  The loop consumes the generator; were the
    generator to raise, the rows would be lost with it.  The last case
    does not arise: [daterange] never runs out of fuel. *)
Definition scrape (w : World) (start stop : date) (out_dir : Path) : M (list row) :=
  match daterange start stop with
  | Complete days => for_each (day_body w out_dir) days []
  | Overflowed days =>
      let* _ := for_each (day_body w out_dir) days [] in raise Overflow
  | Unfinished days => for_each (day_body w out_dir) days []
  end.

(** One run of the program over the files [files]. *)
Definition run (w : World) (start stop : date) (out_dir : Path)
    (files : gmap Path (list byte)) : result (list row) * state :=
  scrape w start stop out_dir {| fs := files; requests := [] |}.

End WithLibs.

(** *** [save_csv] *)


Definition BACKSLASH : char := 0x5C.

(** The characters a writer with [QUOTE_NONE] must escape: the
    delimiter, the escape character, the quote character and the
    characters of the line terminator. *)
Definition needs_escape (c : char) : bool :=
  (c =? COMMA) || (c =? BACKSLASH) || (c =? 0x22) || (c =? 0x0D) || (c =? 0x0A).

Definition escape (field : str) : str :=
  flat_map (fun c => if needs_escape c then [BACKSLASH; c] else [c]) field.

(** The line of a record: the escaped fields between delimiters, and
    the line terminator. *)
Definition csv_line (r : row) : str :=
  join [COMMA] (List.map escape r) ++ [0x0D; 0x0A].




End Scraper.
Import Scraper.


(* ================================================================= *)
(** ** A reference instance of the libraries *)

(** Fragments of the library functions, enough to run the program on
    the examples below: they agree with the libraries on the strings
    and URLs used there. *)
Module Ref.

(** Some rows of the compatibility decomposition table. *)
Definition decompose (c : char) : str :=
  if c =? 0xA0 then [0x20]
  else if c =? 0xE4 then [0x61; 0x308]
  else if c =? 0xE9 then [0x65; 0x301]
  else if c =? 0xF6 then [0x6F; 0x308]
  else if c =? 0xFC then [0x75; 0x308]
  else if c =? 0x37E then [0x3B]
  else if c =? 0xFB01 then [0x66; 0x69]
  else if c =? 0xFF0C then [0x2C]
  else if c =? 0xFF1B then [0x3B]
  else [c].

Definition nfkd_ref (s : str) : str := flat_map decompose s.

Definition alnum_ref (c : char) : bool :=
  in_range 0xC0 0xFF c && negb (c =? 0xD7) && negb (c =? 0xF7).

Definition ascii_alnum (c : char) : bool :=
  in_range 0x30 0x39 c || in_range 0x41 0x5A c || in_range 0x61 0x7A c.

(** [slugify] on ASCII text: lower case, every run of other characters
    one hyphen, none at the ends.  [pending] says that a hyphen is due
    before the next letter or digit. *)
Fixpoint slug_go (pending : bool) (s : str) : str :=
  match s with
  | [] => []
  | c :: s' =>
      if ascii_alnum c
      then (if pending then [0x2D] else []) ++ lower_ascii c :: slug_go false s'
      else slug_go true s'
  end.

Definition slugify_ref (s : str) : str :=
  slug_go false (drop_while (fun c => negb (ascii_alnum c)) s).

(** [urljoin] for a base that ends in a slash and a reference without
    dot segments. *)
Definition origin (base : str) : str :=
  rev (List.tl (rev base)).

Definition urljoin_ref (base url : str) : option str :=
  if startswith (u "http://") url || startswith (u "https://") url then Some url
  else if startswith (u "//") url then Some (u "https:" ++ url)
  else if startswith (u "/") url then Some (origin base ++ url)
  else Some (base ++ url).

Fixpoint take_until (p : char -> bool) (s : str) : str :=
  match s with
  | [] => []
  | c :: s' => if p c then [] else c :: take_until p s'
  end.

(** The text after the last occurrence of [c], or all of [s]. *)
Definition after_last (c : char) (s : str) : str :=
  rev (take_until (N.eqb c) (rev s)).

(** The path of an absolute URL. *)
Definition url_path (url : str) : str :=
  let rest := drop_while (fun c => negb (c =? 0x2F)) (drop 2 (drop_while (fun c => negb (c =? 0x2F)) url)) in
  take_until (fun c => (c =? 0x3F) || (c =? 0x23) || (c =? 0x3B)) rest.

(** [PurePath(path).suffix] *)
Definition suffix (path : str) : str :=
  let name := after_last 0x2F path in
  let ext := after_last 0x2E name in
  if (length ext <? length name - 1)%nat && negb (length ext =? 0)%nat
  then 0x2E :: ext else [].

Definition url_suffix_ref (url : str) : option str := Some (suffix (url_path url)).

Definition libs : Libs := {|
  nfkd := nfkd_ref;
  uni_alnum := alnum_ref;
  slugify := slugify_ref;
  urljoin := urljoin_ref;
  url_suffix := url_suffix_ref
|}.

(** A network on which every download succeeds with an empty body, and
    one on which none does; the system makes every folder. *)
Definition online (pages : str -> option soup) : World :=
  {| render := pages; get := fun _ _ _ => Fetched []; mkdir := fun _ _ => true |}.
Definition offline (pages : str -> option soup) : World :=
  {| render := pages; get := fun _ _ _ => RequestFailed; mkdir := fun _ _ => true |}.

(** The page of the example: one heading, one card. *)
Definition pasta_card : card := {|
  p_tag := Some [u "Pasta Bolognese"; u "Beilagensalat optional"];
  inline_flex := [[u "Vegan"]];
  span := Some [u "Hauptgericht"];
  img_tag := Some {[ u "src" := u "/img/pasta.jpg" ]};
  bg := None
|}.

Definition academica (cards : list card) : h2_tag := {|
  h2_string := Some (u "Mensa Academica");
  h2_text := u "Mensa Academica";
  find_next_div := Some cards
|}.


(** 2025-05-12 and the day before. *)
Definition monday : date := 739383%Z.
Definition sunday : date := 739382%Z.

(** A card whose description is boilerplate only. *)
Definition notice_card : card := {|
  p_tag := Some [u "Beilagensalat optional"; u "Regio-Apfel"];
  inline_flex := [[u "Vegan"]];
  span := Some [u "Hauptgericht"];
  img_tag := Some {[ u "src" := u "/img/salat.jpg" ]};
  bg := None
|}.

(** Two more dishes of the same type, with a JPEG and a PNG image. *)
Definition pizza_card : card := {|
  p_tag := Some [u "Pizza Funghi"];
  inline_flex := [];
  span := Some [u "Hauptgericht"];
  img_tag := Some {[ u "src" := u "/img/pizza.jpg" ]};
  bg := None
|}.

Definition curry_card : card := {|
  p_tag := Some [u "Curry"];
  inline_flex := [[u "Vegan"]];
  span := Some [u "Hauptgericht"];
  img_tag := Some {[ u "src" := u "/img/curry.png" ]};
  bg := None
|}.

(** A card whose [img] has a source set that is one space, and a
    background image besides. *)
Definition blank_srcset_card : card := {|
  p_tag := Some [u "Suppe"];
  inline_flex := [];
  span := Some [u "Hauptgericht"];
  img_tag := Some {[ u "srcset" := u " " ]};
  bg := Some (u "background-image: url(/img/suppe.jpg)")
|}.

(** A site with a menu on two days. *)
Definition menu (url : str) : option soup :=
  if str_eqb url (DAY_URL (isoformat monday))
  then Some [academica [pasta_card; notice_card; pizza_card]]
  else if str_eqb url (DAY_URL (isoformat sunday))
  then Some [academica [curry_card]]
  else None.

End Ref.


(* ================================================================= *)
(** ** Statements about the program: auxiliary definitions *)

Module Props.

(** [n] dates from [d] on, [step] days apart. *)
Fixpoint walk (step : Z) (d : date) (n : nat) : list date :=
  match n with
  | O => []
  | S n' => d :: walk step (d + step)%Z n'
  end.

(** A string in which white space is single spaces only; with
    [after_space], one that does not begin with a space either. *)
Fixpoint squeezed (after_space : bool) (s : str) : bool :=
  match s with
  | [] => true
  | c :: s' =>
      if is_space c
      then (c =? SPACE) && negb after_space && squeezed true s'
      else squeezed false s'
  end.

(** A string that does not begin with white space. *)
Definition no_lead (s : str) : bool :=
  match s with
  | [] => true
  | c :: _ => negb (is_space c)
  end.

(** A download after which there is a file at the destination. *)
Definition leaves_file (d : download) : bool :=
  match d with
  | Fetched _ | WriteFailed (Some _) => true
  | RequestFailed | WriteFailed None => false
  end.



(** The folder [day_dir] can be made in the state [st]. *)
Definition dirs_ok (w : World) (day_dir : Path) (st : state) : bool :=
  negb (in_the_way (fs st) day_dir) && mkdir w (length (requests st)) day_dir.







(** The sign of the step [daterange] chooses. *)
Definition direction (start stop : date) : Z :=
  if (start <=? stop)%Z then 1%Z else (-1)%Z.

Section WithLibs.
Context `{Libs}.

(** What the body of the card loop is about to do, before it touches
    the disk and the network: the URL to fetch, the file to write, and
    the row to append when the file is there.  [Ok None] is
    [continue]. *)
Definition job_of (out_dir : Path) (day : date) (mensa : str) (c : card)
  : result (option (str * Path * row)) :=
  let? description := description_of c in
  match description with
  | None => Ok None
  | Some description =>
      let? img_url := image_url_of c in
      match img_url with
      | None => Ok None
      | Some img_url =>
          let? fpath :=
            file_in (div out_dir (isoformat day)) mensa (dish_type_of c) img_url in
          Ok (Some (img_url, fpath,
                    [description; u "no"; u "no"; dish_type_of c; diet_of c;
                     mensa; path_str fpath]))
      end
  end.

(** The exception that leaves the body of the card loop when the job
    of the card raises [e]: the folder is made after the URL is joined
    and before its suffix is taken. *)
Definition raised (w : World) (out_dir : Path) (day : date) (c : card)
    (st : state) (e : exn) : exn :=
  match description_of c, image_url_of c with
  | Ok (Some _), Ok (Some _) =>
      if dirs_ok w (div out_dir (isoformat day)) st then e else OSError
  | _, _ => e
  end.





End WithLibs.

End Props.
Import Props.

(* ================================================================= *)
(** ** The rest of the program: the reader's view of a line, the size
    of the folder, the choice of the dates *)

Module Reader.

(** The fields of a line as a reader with the writer's dialect splits
    it: the character after a backslash is taken as it is, a comma ends
    a field, a carriage return ends the record.  [cur] is the field
    read so far. *)
Fixpoint parse_go (cur : str) (s : str) : list str :=
  match s with
  | [] => [cur]
  | c :: s' =>
      if c =? BACKSLASH then
        match s' with
        | c' :: s'' => parse_go (cur ++ [c']) s''
        | [] => [cur]
        end
      else if c =? COMMA then cur :: parse_go [] s'
      else if c =? 0x0D then [cur]
      else parse_go (cur ++ [c]) s'
  end.

Definition parse_line (line : str) : row := parse_go [] line.

End Reader.
Import Reader.

Module Disk.

(** What a download left at its destination. *)
Definition left_by (d : download) : option (list byte) :=
  match d with
  | Fetched content => Some content
  | WriteFailed remains => remains
  | RequestFailed => None
  end.

(** [p] is a file somewhere below the folder [path]. *)
Definition below (path p : Path) : bool :=
  (length path <? length p)%nat && bool_decide (take (length path) p = path).

(** [folder_size(path)]: [os.walk] comes to every file below [path]
    once, and [st_size] is the length of its content. *)
Definition folder_size (files : gmap Path (list byte)) (path : Path) : nat :=
  map_fold (fun p content total =>
              if below path p then (total + length content)%nat else total)
    0%nat files.

(** The bytes that the downloads of a log left on the disk; [n] is the
    number of the first of them. *)
Fixpoint downloaded (w : World) (n : nat) (log : list (str * Path)) : nat :=
  match log with
  | [] => 0
  | (url, fpath) :: log' =>
      (from_option length 0 (left_by (get w n url fpath))
       + downloaded w (S n) log')%nat
  end.

End Disk.
Import Disk.

Module Report.
Local Open Scope Z_scope.

(** The number [num/den] to the nearest integer, a tie to the even
    one: the rounding of the format [.1f], which is correct rounding of
    the exact value of the float. *)
Definition round_half_even (num den : Z) : Z :=
  let q := num / den in
  let r := num mod den in
  if 2 * r <? den then q
  else if den <? 2 * r then q + 1
  else if Z.even q then q else q + 1.

Definition decimal (n : Z) : str := u (NilZero.string_of_uint (N.to_uint (Z.to_N n))).

(** A number of tenths, printed with one decimal. *)
Definition format_tenths (t : Z) : str :=
  decimal (t / 10) ++ u "." ++ decimal (t mod 10).

(** [f"{x:.1f}"] for [x = num/den]. *)
Definition format_1f (num den : Z) : str := format_tenths (round_half_even (10 * num) den).

Definition UNITS : list str := [u "B"; u "KB"; u "MB"; u "GB"].

(** The loop of [human] from the unit at the head of [units] on.
    [num_bytes] is [num/den]: below [2^53] bytes the integer is a float
    exactly and every division by 1024 is exact, so the floats of the
    source are these fractions. *)
Fixpoint human_go (units : list str) (num den : Z) : str :=
  match units with
  | [] => format_1f num den ++ u " TB"
  | unit :: units' =>
      if num <? 1024 * den then format_1f num den ++ u " " ++ unit
      else human_go units' num (den * 1024)
  end.

(** [human(num_bytes)] *)
Definition human (num_bytes : Z) : str := human_go UNITS num_bytes 1.

End Report.
Import Report.

Module Main.
Local Open Scope Z_scope.

(** The parsed command line, as far as the dates go. *)
Record args := {
  arg_start : option str;
  arg_stop : option str;
  days_back : Z
}.

Inductive chosen :=
| Span (start stop : date)
| SpecifyBoth
    (** [cli.error("Specify BOTH --start and --stop.")] *)
| BadDate
    (** [cli.error(f"Bad date: {e}")] *)
| OutOfRange.
    (** [OverflowError] from [timedelta] or from the subtraction *)

(** [timedelta(days=n)] *)
Definition timedelta_days (n : Z) : option timedelta :=
  if Z.abs n <=? 999999999 then Some n else None.

(** [d - t], which is [d + timedelta(-t.days)] *)
Definition date_sub (d : date) (t : timedelta) : option date := date_add d (- t).

(** Lines 185-195: the span to scrape.  [fromisoformat] is
    [date.fromisoformat], [None] when it raises [ValueError]; [today] is
    [date.today()]. *)
Definition choose_span (fromisoformat : str -> option date) (today : date)
    (a : args) : chosen :=
  if truthy (arg_start a) || truthy (arg_stop a) then
    if negb (truthy (arg_start a) && truthy (arg_stop a)) then SpecifyBoth
    else
      match fromisoformat (default [] (arg_start a)) with
      | None => BadDate
      | Some start =>
          match fromisoformat (default [] (arg_stop a)) with
          | None => BadDate
          | Some stop => Span start stop
          end
      end
  else
    let start := today in
    match timedelta_days (days_back a - 1) with
    | None => OutOfRange
    | Some t =>
        match date_sub start t with
        | None => OutOfRange
        | Some stop => Span start stop
        end
    end.

End Main.
Import Main.

Module Rules.

(** Line 108, then the result of the resolution: the URL joined to the
    base. *)
Definition absolute `{Libs} (v : str) : result (option str) :=
  let? url := or_raise ValueError (urljoin BASE v) in Ok (Some url).

(** The card has no [img], or none of the three attributes of its
    [img] has a value. *)
Definition img_yields_nothing (c : card) : Prop :=
  match img_tag c with
  | None => True
  | Some a =>
      truthy (a !! u "src") = false /\
      truthy (a !! u "data-src") = false /\
      truthy (a !! u "srcset") = false
  end.

(** The [or] chain of lines 94-99, over the values of the three
    attributes. *)
Definition or_chain (src data_src srcset : option str) : result (option str) :=
  if truthy src then Ok src
  else if truthy data_src then Ok data_src
  else if truthy srcset then
    let? entry := index0 (split_on COMMA (default [] srcset)) in
    let? token := index0 (split_ws entry) in
    Ok (Some token)
  else Ok None.

(** Nothing, or one quote. *)
Definition opt_quote (q : str) : Prop :=
  q = [] \/ exists c, q = [c] /\ is_quote c = true.

(** A text with a closing parenthesis in its first line. *)
Definition closable (rest : str) : Prop :=
  exists mid post, rest = mid ++ [0x29] ++ post /\ (NEWLINE ∉ mid).

(** [style] is cut around a URL [g]: before it [pre] and the first
    [url(] that can be closed, with the quote [q1] when one follows;
    behind it the first closing parenthesis, with the quote [q2] when
    one stands right before it. *)
Definition url_cut (style pre q1 g q2 post : str) : Prop :=
  style = pre ++ u "url(" ++ q1 ++ g ++ q2 ++ [0x29] ++ post /\
  (forall pre' rest,
     style = pre' ++ u "url(" ++ rest -> (length pre' < length pre)%nat ->
     ~ closable rest) /\
  opt_quote q1 /\
  (q1 = [] -> forall c, head (g ++ q2 ++ [0x29]) = Some c -> is_quote c = false) /\
  (0x29 ∉ g) /\ (NEWLINE ∉ g) /\
  opt_quote q2 /\
  (q2 = [] -> forall c, last g = Some c -> is_quote c = false).

End Rules.
Import Rules.

(* ================================================================= *)
(** ** The date range generator *)

Section DateRange.
Local Open Scope Z_scope.

Lemma walk_length step d n : length (walk step d n) = n.
Proof. revert d. induction n as [|n IH]; intros d; simpl; [done|]. by rewrite IH. Qed.

Lemma walk_lookup step n : forall d i,
  (i < n)%nat -> walk step d n !! i = Some (d + Z.of_nat i * step).
Proof.
  induction n as [|n IH]; intros d i Hi; [lia|].
  destruct i as [|i]; simpl.
  - f_equal. lia.
  - rewrite IH by lia. f_equal. lia.
Qed.

Lemma walk_last step n d :
  last (walk step d (S n)) = Some (d + Z.of_nat n * step).
Proof.
  rewrite last_lookup, walk_length.
  change (Nat.pred (S n)) with n. by rewrite walk_lookup by lia.
Qed.

Lemma walk_up_sorted n : forall d, StronglySorted Z.lt (walk 1 d n).
Proof.
  induction n as [|n IH]; intros d; simpl; constructor; [apply IH|].
  apply Forall_lookup_2. intros i x Hx.
  assert (i < n)%nat as Hi by (apply lookup_lt_Some in Hx; by rewrite walk_length in Hx).
  rewrite walk_lookup in Hx by done. injection Hx as <-. lia.
Qed.

Lemma walk_down_sorted n : forall d, StronglySorted Z.gt (walk (-1) d n).
Proof.
  induction n as [|n IH]; intros d; simpl; constructor; [apply IH|].
  apply Forall_lookup_2. intros i x Hx.
  assert (i < n)%nat as Hi by (apply lookup_lt_Some in Hx; by rewrite walk_length in Hx).
  rewrite walk_lookup in Hx by done. injection Hx as <-. lia.
Qed.

(** Resumed after [yield d], the generator walks on to [stop]. *)
Lemma drain_up stop n : forall d,
  0 < d -> stop <= MAXORDINAL -> stop - d = Z.of_nat n ->
  drain (S n) (Suspended 1 stop d) = Complete (walk 1 (d + 1) n).
Proof.
  induction n as [|n IH]; intros d Hd Hstop Hn.
  - simpl. assert (d = stop) as -> by lia. by rewrite Z.eqb_refl.
  - change (drain (S (S n)) ?g) with
      (match next g with
       | Yield d g' => push d (drain (S n) g')
       | StopIteration => Complete []
       | OverflowError => Overflowed []
       end).
    cbn [next]. destruct (Z.eqb_spec d stop) as [->|_]; [lia|].
    unfold date_add.
    replace ((0 <? d + 1) && (d + 1 <=? MAXORDINAL)) with true
      by (symmetry; apply andb_true_iff; split; [apply Z.ltb_lt|apply Z.leb_le]; lia).
    rewrite IH by lia. done.
Qed.

Lemma drain_down stop n : forall d,
  0 < stop -> d <= MAXORDINAL -> d - stop = Z.of_nat n ->
  drain (S n) (Suspended (-1) stop d) = Complete (walk (-1) (d + -1) n).
Proof.
  induction n as [|n IH]; intros d Hstop Hd Hn.
  - simpl. assert (d = stop) as -> by lia. by rewrite Z.eqb_refl.
  - change (drain (S (S n)) ?g) with
      (match next g with
       | Yield d g' => push d (drain (S n) g')
       | StopIteration => Complete []
       | OverflowError => Overflowed []
       end).
    cbn [next]. destruct (Z.eqb_spec d stop) as [->|_]; [lia|].
    unfold date_add.
    replace ((0 <? d + -1) && (d + -1 <=? MAXORDINAL)) with true
      by (symmetry; apply andb_true_iff; split; [apply Z.ltb_lt|apply Z.leb_le]; lia).
    rewrite IH by lia. done.
Qed.

(** More fuel than the generator needs changes nothing. *)
Lemma drain_more g ds : forall n m,
  (n <= m)%nat -> drain n g = Complete ds -> drain m g = Complete ds.
Proof.
  intros n. revert g ds. induction n as [|n IH]; intros g ds m Hm Hn; [done|].
  destruct m as [|m]; [lia|]. simpl in *.
  destruct (next g) as [d g'| |]; try done.
  destruct (drain n g') as [ds'| |] eqn:E; try done.
  rewrite (IH g' ds' m) by (done || lia). done.
Qed.

Lemma daterange_walk start stop :
  valid start -> valid stop ->
  daterange start stop = Complete (walk (direction start stop) start (span_days start stop)).
Proof.
  unfold valid, MINORDINAL, daterange, span_days, direction. intros Hs Ht.
  set (n := Z.to_nat (Z.abs (stop - start))).
  change (drain (S (S n)) ?g) with
    (match next g with
     | Yield d g' => push d (drain (S n) g')
     | StopIteration => Complete []
     | OverflowError => Overflowed []
     end).
  cbn [next]. destruct (Z.leb_spec start stop) as [Hle|Hgt].
  - change (1 * 1) with 1. rewrite (drain_up stop n) by (unfold MAXORDINAL in *; lia). done.
  - change (1 * -1) with (-1). rewrite (drain_down stop n) by (unfold MAXORDINAL in *; lia). done.
Qed.


(** Whatever the endpoints, the fuel of [daterange] is enough: the
    iteration ends, by [StopIteration] or by an overflow. *)
Lemma drain_bounded step stop n : forall d,
  (step = 1 /\ d <= stop \/ step = -1 /\ stop <= d) ->
  Z.abs (stop - d) <= Z.of_nat n ->
  forall ds, drain (S n) (Suspended step stop d) <> Unfinished ds.
Proof.
  induction n as [|n IH]; intros d Hdir Hn ds.
  - simpl. assert (d = stop) as -> by lia. by rewrite Z.eqb_refl.
  - change (drain (S (S n)) ?g) with
      (match next g with
       | Yield d g' => push d (drain (S n) g')
       | StopIteration => Complete []
       | OverflowError => Overflowed []
       end).
    cbn [next]. destruct (Z.eqb_spec d stop) as [->|Hne]; [done|].
    unfold date_add.
    destruct ((0 <? d + step) && (d + step <=? MAXORDINAL)); [|done].
    specialize (IH (d + step)).
    destruct (drain (S n) (Suspended step stop (d + step))) as [ds'|ds'|ds'] eqn:E;
      try done.
    exfalso. apply (IH ltac:(lia) ltac:(lia) ds'). done.
Qed.

Lemma daterange_ends start stop ds : daterange start stop <> Unfinished ds.
Proof.
  unfold daterange, span_days.
  set (n := Z.to_nat (Z.abs (stop - start))).
  change (drain (S (S n)) ?g) with
    (match next g with
     | Yield d g' => push d (drain (S n) g')
     | StopIteration => Complete []
     | OverflowError => Overflowed []
     end).
  cbn [next].
  destruct (drain (S n) _) as [ds'|ds'|ds'] eqn:E; try done.
  exfalso. revert E. apply drain_bounded; [|lia].
  destruct (Z.leb_spec start stop); lia.
Qed.

(** C1.  For valid dates, [daterange(start, stop)] runs to completion.
    When [start <= stop] it yields exactly [(stop - start).days + 1]
    dates, strictly ascending day by day, the first [start] and the
    last [stop].  When [start > stop] it yields as many dates as the
    range between the same endpoints taken forwards, [(start -
    stop).days + 1], strictly descending day by day from [start] down
    to [stop].  [daterange(d, d)] yields [d] alone. *)
Theorem daterange_inclusive (start stop : date) :
  valid start -> valid stop ->
  exists ds, daterange start stop = Complete ds /\
    (start <= stop ->
       Z.of_nat (length ds) = stop - start + 1 /\
       StronglySorted Z.lt ds /\
       head ds = Some start /\ last ds = Some stop /\
       forall i, (i < length ds)%nat -> ds !! i = Some (start + Z.of_nat i)) /\
    (start > stop ->
       Z.of_nat (length ds) = start - stop + 1 /\
       length ds = length (yielded (daterange stop start)) /\
       StronglySorted Z.gt ds /\
       head ds = Some start /\ last ds = Some stop /\
       forall i, (i < length ds)%nat -> ds !! i = Some (start - Z.of_nat i)) /\
    (start = stop -> ds = [start]).
Proof.
  intros Hs Ht. eexists. split; [by apply daterange_walk|].
  pose proof Hs as Hs'. pose proof Ht as Ht'.
  unfold valid, MINORDINAL in Hs', Ht'.
  unfold direction, span_days. split; [|split].
  - intros Hle. destruct (Z.leb_spec start stop); [|lia]. split_and!.
    + rewrite walk_length. lia.
    + apply walk_up_sorted.
    + done.
    + rewrite walk_last. f_equal. lia.
    + intros i Hi. rewrite walk_length in Hi. rewrite walk_lookup by lia.
      f_equal. lia.
  - intros Hgt. destruct (Z.leb_spec start stop); [lia|]. split_and!.
    + rewrite walk_length. lia.
    + rewrite (daterange_walk stop start) by done. simpl.
      rewrite !walk_length. unfold span_days. lia.
    + apply walk_down_sorted.
    + done.
    + rewrite walk_last. f_equal. lia.
    + intros i Hi. rewrite walk_length in Hi. rewrite walk_lookup by lia.
      f_equal. lia.
  - intros ->. rewrite Z.sub_diag. done.
Qed.

Lemma daterange_inclusive_witness :
  exists ds, daterange 739385 739383 = Complete ds /\ length ds = 3%nat.
Proof.
  assert (valid 739385) as H1 by (unfold valid, MINORDINAL, MAXORDINAL; lia).
  assert (valid 739383) as H2 by (unfold valid, MINORDINAL, MAXORDINAL; lia).
  destruct (daterange_inclusive 739385 739383 H1 H2) as (ds & E & _ & Hdown & _).
  exists ds. split; [exact E|].
  destruct Hdown as (Hlen & _); lia.
Defined.

(** C7.  For valid dates the generator terminates, whatever the
    direction: any fuel beyond the number of days between the endpoints
    drains it completely, it yields that many dates, [stop] is the last
    of them and is yielded once only, and a generator resumed after it
    has yielded [stop] stops without yielding again. *)
Theorem daterange_terminates (start stop : date) :
  valid start -> valid stop ->
  exists ds,
    (forall fuel, (S (span_days start stop) <= fuel)%nat ->
       drain fuel (Created start stop) = Complete ds) /\
    length ds = span_days start stop /\
    last ds = Some stop /\
    (forall i, ds !! i = Some stop -> S i = length ds) /\
    (forall step, next (Suspended step stop stop) = StopIteration).
Proof.
  intros Hs Ht. pose proof (daterange_walk start stop Hs Ht) as E.
  pose proof Hs as Hs'. pose proof Ht as Ht'.
  unfold valid, MINORDINAL in Hs', Ht'.
  eexists. split; [|split; [|split; [|split]]].
  - intros fuel Hfuel. eapply drain_more; [exact Hfuel|exact E].
  - apply walk_length.
  - unfold span_days, direction. rewrite walk_last.
    destruct (Z.leb_spec start stop); f_equal; lia.
  - intros i Hi. rewrite walk_length.
    assert (i < span_days start stop)%nat as Hlt
      by (apply lookup_lt_Some in Hi; by rewrite walk_length in Hi).
    rewrite walk_lookup in Hi by done. injection Hi as Hi.
    unfold span_days, direction in *.
    destruct (Z.leb_spec start stop); lia.
  - intros step. simpl. by rewrite Z.eqb_refl.
Qed.

Lemma daterange_terminates_witness :
  exists ds, drain 10 (Created 739383 739385) = Complete ds.
Proof.
  assert (valid 739383) as H1 by (unfold valid, MINORDINAL, MAXORDINAL; lia).
  assert (valid 739385) as H2 by (unfold valid, MINORDINAL, MAXORDINAL; lia).
  destruct (daterange_terminates 739383 739385 H1 H2) as (ds & Hfuel & _).
  exists ds. apply Hfuel. vm_compute. lia.
Defined.

End DateRange.


(* ================================================================= *)
(** ** The text normalizer *)

Section Normalizer.
Context `{Libs}.

Lemma byte_of_ascii (c : char) :
  is_ascii c = true -> exists b, Byte.of_N c = Some b /\ Byte.to_N b = c.
Proof.
  unfold is_ascii. intros Hc. apply N.ltb_lt in Hc.
  pose proof (Byte.to_of_N_option_map c) as E.
  destruct (N.leb_spec c 255) as [_|?]; [|lia].
  destruct (Byte.of_N c) as [b|] eqn:Eb; [|done].
  exists b. split; [done|]. by apply Byte.to_of_N.
Qed.

(** Decoding what [encode("ascii", "ignore")] produced never fails. *)
Lemma decode_encode (s : str) :
  utf8_decode (encode_ascii_ignore s) = Some (List.filter is_ascii s).
Proof.
  unfold encode_ascii_ignore. induction s as [|c s IH]; [done|].
  cbn [omap list_omap List.filter]. destruct (is_ascii c) eqn:Hc.
  - destruct (byte_of_ascii c Hc) as (b & -> & Hb).
    cbn [utf8_decode]. rewrite Hb. unfold is_ascii in Hc. rewrite Hc.
    by rewrite IH.
  - exact IH.
Qed.

Lemma squash_eq (x : str) :
  squash x = Some (strip (sub_ws (List.filter is_ascii (nfkd x)))).
Proof. unfold squash. by rewrite decode_encode. Qed.

Lemma squeezed_sub_ws b s : squeezed b (sub_ws_go b s) = true.
Proof.
  revert b. induction s as [|c s IH]; intros b; [done|].
  simpl. destruct (is_space c) eqn:Hc.
  - destruct b; [apply IH|]. simpl. by rewrite IH.
  - simpl. by rewrite Hc, IH.
Qed.

Lemma sub_ws_squeezed b s : squeezed b s = true -> sub_ws_go b s = s.
Proof.
  revert b. induction s as [|c s IH]; intros b Hs; [done|].
  simpl in *. destruct (is_space c).
  - apply andb_true_iff in Hs as [Hs Hs']. apply andb_true_iff in Hs as [Hc Hb].
    apply N.eqb_eq in Hc as ->. destruct b; [done|]. by rewrite IH.
  - by rewrite IH.
Qed.

Lemma squeezed_drop_while b s :
  squeezed b s = true -> squeezed false (drop_while is_space s) = true.
Proof.
  revert b. induction s as [|c s IH]; intros b Hs; [done|].
  simpl in *. destruct (is_space c) eqn:Hc.
  - apply andb_true_iff in Hs as [_ Hs]. by apply (IH true).
  - simpl. by rewrite Hc.
Qed.

Lemma squeezed_prefix b s t : squeezed b (s ++ t) = true -> squeezed b s = true.
Proof.
  revert b. induction s as [|c s IH]; intros b Hs; [done|].
  simpl in *. destruct (is_space c).
  - apply andb_true_iff in Hs as [-> Hs]. by rewrite (IH true).
  - by apply IH.
Qed.

Lemma drop_while_split (p : char -> bool) s :
  exists t, s = t ++ drop_while p s.
Proof.
  induction s as [|c s [t IH]]; [by exists []|].
  simpl. destruct (p c); [|by exists []].
  exists (c :: t). simpl. by f_equal.
Qed.

Lemma rstrip_prefix s : exists t, s = rstrip s ++ t.
Proof.
  unfold rstrip. destruct (drop_while_split is_space (rev s)) as [t Ht].
  exists (rev t). rewrite <- rev_app_distr, <- Ht. by rewrite rev_involutive.
Qed.

Lemma squeezed_strip s : squeezed false s = true -> squeezed false (strip s) = true.
Proof.
  intros Hs. unfold strip, lstrip.
  apply squeezed_drop_while in Hs.
  destruct (rstrip_prefix (drop_while is_space s)) as [t Ht].
  rewrite Ht in Hs. by apply squeezed_prefix in Hs.
Qed.

Lemma no_lead_drop_while s : no_lead (drop_while is_space s) = true.
Proof.
  induction s as [|c s IH]; [done|]. simpl.
  destruct (is_space c) eqn:Hc; [done|]. simpl. by rewrite Hc.
Qed.

Lemma drop_while_no_lead s : no_lead s = true -> drop_while is_space s = s.
Proof. destruct s as [|c s]; [done|]. simpl. by destruct (is_space c). Qed.

Lemma no_lead_prefix s t : no_lead (s ++ t) = true -> no_lead s = true.
Proof. by destruct s. Qed.

Lemma rstrip_rstrip s : rstrip (rstrip s) = rstrip s.
Proof.
  unfold rstrip. rewrite rev_involutive.
  by rewrite (drop_while_no_lead _ (no_lead_drop_while _)).
Qed.

Lemma strip_strip s : strip (strip s) = strip s.
Proof.
  unfold strip at 1. unfold lstrip. rewrite drop_while_no_lead.
  - unfold strip. apply rstrip_rstrip.
  - unfold strip. pose proof (no_lead_drop_while s) as Hl.
    destruct (rstrip_prefix (lstrip s)) as [t Ht]. unfold lstrip in *.
    rewrite Ht in Hl. by apply no_lead_prefix in Hl.
Qed.

Lemma filter_ascii_id s : forallb is_ascii s = true -> List.filter is_ascii s = s.
Proof.
  induction s as [|c s IH]; [done|]. simpl.
  intros Hs. apply andb_true_iff in Hs as [-> Hs]. by rewrite IH.
Qed.

Lemma forallb_filter_ascii s : forallb is_ascii (List.filter is_ascii s) = true.
Proof.
  induction s as [|c s IH]; [done|]. simpl.
  destruct (is_ascii c) eqn:Hc; [|done]. simpl. by rewrite Hc.
Qed.

Lemma forallb_sub_ws b s :
  forallb is_ascii s = true -> forallb is_ascii (sub_ws_go b s) = true.
Proof.
  revert b. induction s as [|c s IH]; intros b Hs; [done|].
  simpl in *. apply andb_true_iff in Hs as [Hc Hs].
  destruct (is_space c); [destruct b|]; simpl; rewrite ?Hc, ?IH; done.
Qed.

Lemma forallb_drop_while (p q : char -> bool) s :
  forallb q s = true -> forallb q (drop_while p s) = true.
Proof.
  induction s as [|c s IH]; [done|]. simpl.
  intros Hs. destruct (p c); [|done].
  apply andb_true_iff in Hs as [_ Hs]. by apply IH.
Qed.

Lemma forallb_rev' (q : char -> bool) s : forallb q (rev s) = forallb q s.
Proof.
  induction s as [|c s IH]; [done|]. simpl.
  rewrite forallb_app, IH. simpl. by rewrite andb_true_r, andb_comm.
Qed.

Lemma forallb_strip s : forallb is_ascii s = true -> forallb is_ascii (strip s) = true.
Proof.
  intros Hs. unfold strip, rstrip, lstrip.
  rewrite forallb_rev'. apply forallb_drop_while. rewrite forallb_rev'.
  by apply forallb_drop_while.
Qed.

(** C2.  [squash] returns a string for every input.  It returns the
    empty string when the decomposition of the input has no ASCII
    character.  Given that NFKD leaves ASCII strings as they are, it
    returns the empty string for the empty string and it is
    idempotent. *)
Theorem squash_total_idempotent :
  (forall x, exists y, squash x = Some y) /\
  (forall x, forallb (fun c => negb (is_ascii c)) (nfkd x) = true ->
     squash x = Some []) /\
  ((forall s, forallb is_ascii s = true -> nfkd s = s) ->
     squash [] = Some [] /\
     forall x y, squash x = Some y -> squash y = Some y).
Proof.
  split; [|split].
  - intros x. eexists. apply squash_eq.
  - intros x Hx. rewrite squash_eq.
    replace (List.filter is_ascii (nfkd x)) with (@nil char); [done|].
    induction (nfkd x) as [|c s IH]; [done|]. simpl in *.
    apply andb_true_iff in Hx as [Hc Hx]. apply negb_true_iff in Hc.
    rewrite Hc. by apply IH.
  - intros Hnfkd. split.
    + rewrite squash_eq, (Hnfkd []) by done. done.
    + intros x y Hy. rewrite squash_eq in Hy. injection Hy as <-.
      set (a := List.filter is_ascii (nfkd x)).
      assert (forallb is_ascii (strip (sub_ws a)) = true) as Hascii
        by (apply forallb_strip, forallb_sub_ws, forallb_filter_ascii).
      assert (squeezed false (strip (sub_ws a)) = true) as Hsq
        by (apply squeezed_strip, squeezed_sub_ws).
      rewrite squash_eq, (Hnfkd _ Hascii), (filter_ascii_id _ Hascii).
      unfold sub_ws at 1. rewrite (sub_ws_squeezed _ _ Hsq).
      by rewrite strip_strip.
Qed.

End Normalizer.

Lemma decompose_ascii (c : char) : is_ascii c = true -> Ref.decompose c = [c].
Proof.
  unfold is_ascii, Ref.decompose. intros Hc. apply N.ltb_lt in Hc.
  repeat match goal with
         | |- context [?a =? ?b] => destruct (N.eqb_spec a b); [lia|]
         end.
  done.
Qed.

Lemma nfkd_ref_ascii (s : str) : forallb is_ascii s = true -> Ref.nfkd_ref s = s.
Proof.
  unfold Ref.nfkd_ref. induction s as [|c s IH]; [done|]. simpl.
  intros Hs. apply andb_true_iff in Hs as [Hc Hs].
  by rewrite (decompose_ascii c Hc), IH.
Qed.

Lemma squash_total_idempotent_witness :
  @squash Ref.libs [0x20; 0x4B; 0xE4; 0x73; 0x65; 0x09; 0x0A; 0x53; 0x70; 0xE4;
                    0x74; 0x7A; 0x6C; 0x65; 0x20]
    = Some (u "Kase Spatzle") /\
  @squash Ref.libs (u "Kase Spatzle") = Some (u "Kase Spatzle").
Proof.
  destruct (@squash_total_idempotent Ref.libs) as (_ & _ & Hidem).
  destruct (Hidem nfkd_ref_ascii) as [_ Hfix].
  assert (@squash Ref.libs [0x20; 0x4B; 0xE4; 0x73; 0x65; 0x09; 0x0A; 0x53; 0x70;
                            0xE4; 0x74; 0x7A; 0x6C; 0x65; 0x20]
          = Some (u "Kase Spatzle")) as E by (vm_compute; reflexivity).
  split; [exact E|exact (Hfix _ _ E)].
Defined.



(* ================================================================= *)
(** ** The body of the card loop *)

Section CardLoop.
Context `{Libs} (w : World).

Lemma make_dir_ok day_dir st :
  make_dir w day_dir st =
  (if dirs_ok w day_dir st then Ok tt else Raise OSError, st).
Proof.
  unfold make_dir, dirs_ok. destruct (in_the_way (fs st) day_dir); [done|].
  by destruct (mkdir w _ day_dir).
Qed.

(** [process_card] is its job, with the folder made on the way, then
    the download. *)
Lemma process_card_job out_dir day mensa c st :
  process_card w out_dir day mensa c st =
  match job_of out_dir day mensa c with
  | Raise e => (Raise (raised w out_dir day c st e), st)
  | Ok None => (Ok None, st)
  | Ok (Some (url, fpath, r)) =>
      if dirs_ok w (div out_dir (isoformat day)) st then
        match fetch w url fpath st with
        | (Ok true, st') => (Ok (Some r), st')
        | (Ok false, st') => (Ok None, st')
        | (Raise e, st') => (Raise e, st')
        end
      else (Raise OSError, st)
  end.
Proof.
  unfold process_card, job_of, raised, destination, bind, lift, ret, rbind.
  destruct (description_of c) as [[d|]|e]; try done.
  destruct (image_url_of c) as [[url|]|e]; try done.
  rewrite make_dir_ok.
  destruct (dirs_ok w (div out_dir (isoformat day)) st);
    destruct (file_in (div out_dir (isoformat day)) mensa (dish_type_of c) url)
      as [fpath|e]; try done.
  destruct (fetch w url fpath st) as [[[|]|e] st']; done.
Qed.

(** The two ways a download step can go: the file is there and nothing
    happens, or one request is logged and the file is there afterwards
    exactly when the download left one. *)
Lemma fetch_spec url fpath st res st' :
  fetch w url fpath st = (res, st') ->
  (is_Some (fs st !! fpath) /\ res = Ok true /\ st' = st) \/
  (fs st !! fpath = None /\
   requests st' = requests st ++ [(url, fpath)] /\
   (forall q, q <> fpath -> fs st' !! q = fs st !! q) /\
   (is_Some (fs st' !! fpath) <->
    leaves_file (get w (length (requests st)) url fpath) = true) /\
   (res = Ok true \/ res = Ok false) /\
   (res = Ok true -> is_Some (fs st' !! fpath))).
Proof.
  unfold fetch. destruct (fs st !! fpath) as [old|] eqn:E.
  - intros [= <- <-]. left. by split.
  - intros Hf. right. split; [done|].
    destruct (get w (length (requests st)) url fpath) as [content| |[content|]];
      injection Hf as <- <-; simpl; split_and!; try done;
      try (intros q Hq; by rewrite lookup_insert_ne);
      rewrite ?lookup_insert_eq, ?E; try (by left); try (by right);
      try (split; [done|by intros _; eexists]); try (by intros _; eexists);
      try (split; [by intros [? ?]|done]).
Qed.

Lemma filter_boilerplate strings :
  forallb boilerplate strings = true ->
  List.filter (fun ln => negb (boilerplate ln)) strings = [].
Proof.
  induction strings as [|ln strings IH]; [done|]. simpl.
  intros Hb. apply andb_true_iff in Hb as [-> Hb]. by apply IH.
Qed.

End CardLoop.



(* ================================================================= *)
(** ** Invariants of the loops *)

Section Loops.
Context `{Libs} (w : World).









Lemma job_of_row out_dir day mensa c url fpath r :
  job_of out_dir day mensa c = Ok (Some (url, fpath, r)) ->
  exists description,
    description_of c = Ok (Some description) /\
    image_url_of c = Ok (Some url) /\
    file_in (div out_dir (isoformat day)) mensa (dish_type_of c) url = Ok fpath /\
    r = [description; u "no"; u "no"; dish_type_of c; diet_of c; mensa;
         path_str fpath].
Proof.
  unfold job_of, rbind.
  destruct (description_of c) as [[d|]|e]; try done.
  destruct (image_url_of c) as [[url'|]|e]; try done.
  destruct (file_in (div out_dir (isoformat day)) mensa (dish_type_of c) url')
    as [p|e] eqn:Hd; try done.
  intros Heq. inversion Heq; subst. by exists d.
Qed.

Section Invariant.
Variable files : gmap Path (list byte).
Variable out_dir : Path.





End Invariant.


(** *** The order of the rows *)





End Loops.

(** *** The writer *)
















(* ================================================================= *)
(** ** The claims about [scrape] and [save_csv] *)

(** C9.  A card whose description block has only boilerplate lines is
    passed over: the body of the card loop returns no row, appends
    nothing, issues no request and leaves the state as it was, whatever
    the other fields of the card are. *)
Theorem boilerplate_card_skipped `{Libs} (w : World) (out_dir : Path) (day : date)
    (mensa : str) (c : card) (strings : list str) (rows : list row) (st : state) :
  p_tag c = Some strings ->
  forallb boilerplate strings = true ->
  process_card w out_dir day mensa c st = (Ok None, st) /\
  card_body w out_dir day mensa c rows st = (Ok rows, st).
Proof.
  intros Hp Hb.
  assert (process_card w out_dir day mensa c st = (Ok None, st)) as E.
  { unfold process_card, description_of, bind, lift.
    by rewrite Hp, (filter_boilerplate _ Hb). }
  split; [done|]. unfold card_body, bind. by rewrite E.
Qed.

Lemma boilerplate_card_skipped_witness :
  @process_card Ref.libs (Ref.online Ref.menu) [u "images"] Ref.monday
    (u "Mensa Academica") Ref.notice_card {| fs := ∅; requests := [] |}
  = (Ok None, {| fs := ∅; requests := [] |}).
Proof.
  refine (proj1 (@boilerplate_card_skipped Ref.libs _ _ _ _ Ref.notice_card
                   [u "Beilagensalat optional"; u "Regio-Apfel"] [] _ _ _));
    reflexivity.
Defined.








(** The description is stripped of delimiters before it is folded to
    ASCII, and the folding of a full-width comma is a comma. *)
Example description_folds_to_comma :
  @description_of Ref.libs
    {| p_tag := Some [[0x50; 0xFF0C; 0x51]]; inline_flex := []; span := None;
       img_tag := None; bg := None |}
  = Ok (Some [0x50; COMMA; 0x51]).
Proof. vm_compute. reflexivity. Qed.

(* ================================================================= *)
(** ** Downloading once *)

Section Download.
Context `{Libs} (w : World).






End Download.




(* ================================================================= *)
(** ** The worked example *)

Section Example.
Context `{Libs} (w : World).

Lemma for_each_singleton {A} (body : A -> list row -> M (list row)) x rows st :
  for_each body [x] rows st = body x rows st.
Proof. cbn [for_each]. unfold bind, ret. by destruct (body x rows st) as [[?|?] ?]. Qed.

Lemma daterange_single (d : date) : daterange d d = Complete [d].
Proof.
  unfold daterange, span_days. rewrite Z.sub_diag. simpl.
  by rewrite Z.eqb_refl.
Qed.







End Example.



(* ================================================================= *)
(** ** A blank source set *)

Section BlankSrcset.
Context `{Libs}.

Lemma blank_srcset_index_error :
  image_url_of Ref.blank_srcset_card = Raise IndexError.
Proof. vm_compute. reflexivity. Qed.

(** C3, at the card that breaks it.  The [img] of the card has no
    [src] and no [data-src], and a [srcset] that is one space; its
    inline style has a background image.  The fourth rule would give
    [/img/suppe.jpg]; the program raises [IndexError] on the third,
    at [split()[0]], before it gets there. *)
Theorem blank_srcset_raises :
  bg_url None Ref.blank_srcset_card = Some (u "/img/suppe.jpg") /\
  image_url_of Ref.blank_srcset_card = Raise IndexError.
Proof. split; [vm_compute; reflexivity|apply blank_srcset_index_error]. Qed.

(** C4, at the page that breaks it.  The first card of the page is the
    one above, the second is the well-formed card of the worked
    example.  Whatever the libraries, the network, the system, the
    output folder and the files, the run ends in [IndexError]: no row
    is returned, not even that of the second card, and no download is
    attempted. *)
Theorem malformed_card_aborts_run (net : nat -> str -> Path -> download)
    (dirs : nat -> Path -> bool) (out_dir : Path) (files : gmap Path (list byte)) :
  run {| render := fun _ => Some [Ref.academica [Ref.blank_srcset_card; Ref.pasta_card]];
         get := net; mkdir := dirs |}
      Ref.monday Ref.monday out_dir files
  = (Raise IndexError, {| fs := files; requests := [] |}).
Proof.
  unfold run, scrape. rewrite daterange_single, for_each_singleton.
  unfold day_body. cbn [render].
  change (List.filter h2_selected [?h]) with [h].
  rewrite for_each_singleton.
  unfold heading_body, bind, lift, mensa_of.
  cbn [h2_text find_next_div Ref.academica]. rewrite squash_eq. cbn [or_raise rbind].
  cbn [for_each]. unfold card_body, bind.
  rewrite process_card_job. unfold job_of, raised.
  assert (exists d, description_of Ref.blank_srcset_card = Ok (Some d)) as [d ->].
  { unfold description_of. cbn [p_tag Ref.blank_srcset_card].
    change (List.map strip (List.filter _ _)) with [u "Suppe"].
    cbv beta iota. rewrite squash_eq. by eexists. }
  cbn [rbind]. by rewrite blank_srcset_index_error.
Qed.

End BlankSrcset.

(* ================================================================= *)
(** ** More about the pure functions *)

Lemma replace_char_map (c : char) s :
  replace [c] [SPACE] s = List.map (fun x => if c =? x then SPACE else x) s.
Proof.
  unfold replace. induction s as [|x s IH]; [done|]. simpl.
  destruct (c =? x); simpl; by rewrite IH.
Qed.

(** X1.  Stripping the delimiters, [.replace(",", " ").replace(";",
    " ")], changes a string character by character: every comma and
    every semicolon becomes one space and every other character stays
    where it is, so the length is kept. *)
Theorem strip_delims_pointwise (s : str) :
  strip_delims s =
    List.map (fun c => if (c =? COMMA) || (c =? SEMICOLON) then SPACE else c) s /\
  length (strip_delims s) = length s.
Proof.
  assert (strip_delims s =
          List.map (fun c => if (c =? COMMA) || (c =? SEMICOLON) then SPACE else c) s)
    as E.
  { unfold strip_delims. rewrite !replace_char_map, List.map_map.
    apply List.map_ext. intros c. rewrite (N.eqb_sym c COMMA), (N.eqb_sym c SEMICOLON).
    destruct (N.eqb_spec COMMA c) as [<-|Hc]; [done|]. simpl.
    by destruct (SEMICOLON =? c). }
  split; [done|]. by rewrite E, length_map.
Qed.

Section NormalForm.
Context `{Libs}.

Lemma squeezed_chars b s c :
  squeezed b s = true -> c ∈ s -> is_space c = true -> c = SPACE.
Proof.
  revert b. induction s as [|x s IH]; intros b Hs Hc Hsp.
  - by apply elem_of_nil in Hc.
  - simpl in Hs. apply elem_of_cons in Hc as [->|Hc].
    + rewrite Hsp in Hs. apply andb_true_iff in Hs as [Hs _].
      apply andb_true_iff in Hs as [Hx _]. by apply N.eqb_eq in Hx.
    + destruct (is_space x).
      * apply andb_true_iff in Hs as [_ Hs]. by apply (IH true).
      * by apply (IH false).
Qed.

Lemma squeezed_after_space s : squeezed true s = true -> head s <> Some SPACE.
Proof.
  destruct s as [|x s]; [done|]. simpl. intros Hs [= ->].
  change (is_space SPACE) with true in Hs. by rewrite andb_false_r in Hs.
Qed.

Lemma squeezed_adjacent s : forall b i,
  squeezed b s = true -> s !! i = Some SPACE -> s !! S i <> Some SPACE.
Proof.
  induction s as [|x s IH]; intros b i Hs Hi; [done|].
  simpl in Hs. destruct i as [|i]; simpl in *.
  - injection Hi as ->. change (is_space SPACE) with true in Hs.
    apply andb_true_iff in Hs as [_ Hs].
    apply squeezed_after_space in Hs. by destruct s.
  - destruct (is_space x).
    + apply andb_true_iff in Hs as [_ Hs]. by apply (IH true).
    + by apply (IH false).
Qed.

Lemma last_head_rev (s : str) : last s = head (rev s).
Proof.
  rewrite <- (rev_involutive s) at 1. destruct (rev s) as [|c t]; [done|].
  simpl. by rewrite last_snoc.
Qed.

Lemma no_lead_head s : no_lead s = true -> head s <> Some SPACE.
Proof. destruct s as [|x s]; [done|]. simpl. by intros Hx [= ->]. Qed.

Lemma no_lead_strip s : no_lead (strip s) = true.
Proof.
  unfold strip. pose proof (no_lead_drop_while s) as Hl.
  destruct (rstrip_prefix (lstrip s)) as [t Ht]. unfold lstrip in *.
  rewrite Ht in Hl. by apply no_lead_prefix in Hl.
Qed.

Lemma no_trail_strip s : no_lead (rev (strip s)) = true.
Proof.
  unfold strip, rstrip. rewrite rev_involutive. apply no_lead_drop_while.
Qed.

(** X2.  Whatever the input, [squash] returns a string of ASCII
    characters in which the only white space is the space character, no
    two spaces are adjacent, and neither the first nor the last
    character is a space. *)
Theorem squash_normal_form (x : str) :
  exists y,
    squash x = Some y /\
    (forall c, c ∈ y -> is_ascii c = true /\ (is_space c = true -> c = SPACE)) /\
    (forall i, y !! i = Some SPACE -> y !! S i <> Some SPACE) /\
    head y <> Some SPACE /\ last y <> Some SPACE.
Proof.
  eexists. split; [apply squash_eq|].
  set (a := List.filter is_ascii (nfkd x)).
  assert (squeezed false (strip (sub_ws a)) = true) as Hsq
    by apply squeezed_strip, squeezed_sub_ws.
  split_and!.
  - intros c Hc. split.
    + pose proof (forallb_strip _ (forallb_sub_ws false _ (forallb_filter_ascii (nfkd x))))
        as Hall.
      rewrite forallb_forall in Hall. apply Hall. by apply list_elem_of_In.
    + by apply (squeezed_chars false (strip (sub_ws a))).
  - intros i. by apply (squeezed_adjacent _ false).
  - apply no_lead_head, no_lead_strip.
  - rewrite last_head_rev. apply no_lead_head, no_trail_strip.
Qed.

End NormalForm.

Section DateRangeCovers.
Local Open Scope Z_scope.

(** X3.  For valid dates, [daterange(start, stop)] yields every day
    between the two endpoints, both included, and no other date, each
    of them once. *)
Theorem daterange_covers (start stop : date) :
  valid start -> valid stop ->
  exists ds,
    daterange start stop = Complete ds /\
    NoDup ds /\
    forall d, d ∈ ds <-> Z.min start stop <= d <= Z.max start stop.
Proof.
  intros Hs Ht. eexists. split; [by apply daterange_walk|].
  unfold direction, span_days. split.
  - apply NoDup_alt. intros i j d Hi Hj.
    pose proof (lookup_lt_Some _ _ _ Hi) as Hli.
    pose proof (lookup_lt_Some _ _ _ Hj) as Hlj.
    rewrite walk_length in Hli, Hlj.
    rewrite walk_lookup in Hi, Hj by done.
    destruct (Z.leb_spec start stop); simplify_eq; lia.
  - intros d. rewrite list_elem_of_lookup. split.
    + intros [i Hi]. pose proof (lookup_lt_Some _ _ _ Hi) as Hli.
      rewrite walk_length in Hli. rewrite walk_lookup in Hi by done.
      destruct (Z.leb_spec start stop); simplify_eq; lia.
    + intros Hd. destruct (Z.leb_spec start stop).
      * exists (Z.to_nat (d - start)). rewrite walk_lookup by lia. f_equal. lia.
      * exists (Z.to_nat (start - d)). rewrite walk_lookup by lia. f_equal. lia.
Qed.

Lemma daterange_covers_witness :
  exists ds, daterange 739383 739380 = Complete ds /\ 739381 ∈ ds.
Proof.
  assert (valid 739383) as H1 by (unfold valid, MINORDINAL, MAXORDINAL; lia).
  assert (valid 739380) as H2 by (unfold valid, MINORDINAL, MAXORDINAL; lia).
  destruct (daterange_covers 739383 739380 H1 H2) as (ds & E & _ & Hin).
  exists ds. split; [exact E|]. apply Hin. lia.
Defined.

End DateRangeCovers.

(* ================================================================= *)
(** ** The boilerplate pattern *)

Lemma ci_prefix_app p : forall s t rest,
  ci_prefix p s = Some rest -> ci_prefix p (s ++ t) = Some (rest ++ t).
Proof.
  induction p as [|a p IH]; intros s t rest.
  - simpl. by intros [= ->].
  - destruct s as [|b s]; [done|]. simpl. destruct (ci_char a b); [apply IH|done].
Qed.

Ltac range_cases :=
  unfold lower_ascii, in_range;
  repeat (match goal with
          | |- context [?a <=? ?b] => destruct (N.leb_spec a b)
          | |- context [?a =? ?b] => destruct (N.eqb_spec a b)
          end; simpl in *);
  try done; try lia.

Lemma lower_ascii_idem c : lower_ascii (lower_ascii c) = lower_ascii c.
Proof. range_cases. Qed.

Lemma lower_ascii_other c k :
  (k < 65 \/ 122 < k) -> (lower_ascii c =? k) = (c =? k).
Proof. intros Hk. range_cases. Qed.

Lemma ci_char_lower p c : ci_char p (lower_ascii c) = ci_char p c.
Proof.
  unfold ci_char. cbv zeta. rewrite lower_ascii_idem.
  by rewrite (lower_ascii_other c 0x130), (lower_ascii_other c 0x131),
    (lower_ascii_other c 0x212A), (lower_ascii_other c 0x17F) by lia.
Qed.

Lemma ci_prefix_lower p : forall s,
  ci_prefix p (List.map lower_ascii s) = List.map lower_ascii <$> ci_prefix p s.
Proof.
  induction p as [|a p IH]; intros s; [done|].
  destruct s as [|b s]; [done|]. simpl. rewrite ci_char_lower.
  destruct (ci_char a b); [apply IH|done].
Qed.

Lemma is_some_fmap {A B} (f : A -> B) (o : option A) :
  is_some (f <$> o) = is_some o.
Proof. by destruct o. Qed.

(** X4.  The boilerplate test looks at the beginning of a line only,
    and not at the case of its ASCII letters: a line that matches still
    matches whatever is appended to it, and a line matches exactly when
    its lower-case form does. *)
Theorem boilerplate_prefix_case :
  (forall ln t, boilerplate ln = true -> boilerplate (ln ++ t) = true) /\
  (forall ln, boilerplate (List.map lower_ascii ln) = boilerplate ln).
Proof.
  split.
  - intros ln t. unfold boilerplate. intros Hb.
    apply orb_true_iff in Hb as [Hb|Hb].
    + destruct (ci_prefix (u "beilagensalat") ln) as [rest|] eqn:E; [|done].
      by rewrite (ci_prefix_app _ _ t _ E).
    + apply orb_true_iff. right.
      destruct (ci_prefix (u "regio") ln) as [rest|] eqn:E; [|done].
      rewrite (ci_prefix_app _ _ t _ E).
      apply orb_true_iff in Hb as [Hb|Hb].
      * destruct rest as [|c rest']; [done|].
        change ((c :: rest') ++ t) with (c :: (rest' ++ t)). cbv beta iota.
        apply andb_true_iff in Hb as [-> Hb].
        destruct (ci_prefix (u "apfel") rest') as [r|] eqn:E'; [|done].
        by rewrite (ci_prefix_app _ _ t _ E').
      * destruct (ci_prefix (u "apfel") rest) as [r|] eqn:E'; [|done].
        rewrite (ci_prefix_app _ _ t _ E'). apply orb_true_r.
  - intros ln. unfold boilerplate.
    rewrite !ci_prefix_lower, is_some_fmap. f_equal.
    destruct (ci_prefix (u "regio") ln) as [rest|]; [|done]. cbn [fmap option_fmap option_map].
    rewrite ci_prefix_lower, is_some_fmap. f_equal.
    destruct rest as [|c rest']; [done|]. cbn [List.map].
    rewrite ci_prefix_lower, is_some_fmap.
    by rewrite (lower_ascii_other c 0x2D), (lower_ascii_other c 0x20) by lia.
Qed.

(* ================================================================= *)
(** ** The writer and its reader *)


Lemma parse_escape f : forall cur rest,
  parse_go cur (escape f ++ rest) = parse_go (cur ++ f) rest.
Proof.
  unfold escape. induction f as [|c f IH]; intros cur rest.
  - by rewrite app_nil_r.
  - cbn [flat_map]. rewrite <- app_assoc.
    replace (cur ++ c :: f) with ((cur ++ [c]) ++ f) by (by rewrite <- app_assoc).
    destruct (needs_escape c) eqn:Hc.
    + cbn [app parse_go]. rewrite N.eqb_refl. apply IH.
    + unfold needs_escape in Hc. repeat (apply orb_false_iff in Hc as [Hc ?]).
      cbn [app parse_go].
      replace (c =? BACKSLASH) with false. replace (c =? COMMA) with false.
      replace (c =? 13) with false. apply IH.
Qed.

Lemma parse_fields f r : forall cur,
  parse_go cur (csv_line (f :: r)) = (cur ++ f) :: r.
Proof.
  unfold csv_line. revert f. induction r as [|g r IH]; intros f cur.
  - cbn [List.map join]. rewrite parse_escape. done.
  - change (join [COMMA] (List.map escape (f :: g :: r)))
      with (escape f ++ [COMMA] ++ join [COMMA] (List.map escape (g :: r))).
    rewrite <- !app_assoc, parse_escape. cbn [app parse_go].
    change (COMMA =? BACKSLASH) with false. rewrite N.eqb_refl. cbv iota.
    f_equal. apply (IH g []).
Qed.

(** X6.  A line the writer produced can be read back: splitting the
    line of a record that has at least one field at its unescaped
    commas, and undoing the escapes, gives the fields of the record.
    So two such records with the same line are the same record. *)
Theorem csv_line_read_back (r : row) :
  r <> [] ->
  parse_line (csv_line r) = r /\
  forall r', r' <> [] -> csv_line r' = csv_line r -> r' = r.
Proof.
  assert (forall r0 : row, r0 <> [] -> parse_line (csv_line r0) = r0) as Hback.
  { intros [|f r0] Hr0; [done|]. unfold parse_line. by rewrite parse_fields. }
  intros Hr. split; [by apply Hback|].
  intros r' Hr' E. by rewrite <- (Hback r' Hr'), E, Hback.
Qed.

Lemma csv_line_read_back_witness :
  parse_line (csv_line [u "Pasta, frisch"; u "no"; u "a\b"]) =
    [u "Pasta, frisch"; u "no"; u "a\b"].
Proof.
  refine (proj1 (csv_line_read_back [u "Pasta, frisch"; u "no"; u "a\b"] _)).
  discriminate.
Defined.

(* ================================================================= *)
(** ** The rules of the image URL *)

Section ImageRules.
Context `{Libs}.

Lemma split_ws_go_nonempty s : forall cur,
  (forall w, cur = Some w -> w <> []) ->
  forall t, t ∈ split_ws_go cur s -> t <> [].
Proof.
  induction s as [|c s IH]; intros cur Hcur t Ht.
  - destruct cur as [w|]; [|by apply elem_of_nil in Ht].
    apply list_elem_of_singleton in Ht as ->.
    specialize (Hcur w eq_refl). destruct w as [|x w]; [done|].
    simpl. by destruct (rev w).
  - simpl in Ht. destruct (is_space c).
    + destruct cur as [w|].
      * apply elem_of_cons in Ht as [->|Ht].
        -- specialize (Hcur w eq_refl). destruct w as [|x w]; [done|].
           simpl. by destruct (rev w).
        -- by apply (IH None).
      * by apply (IH None).
    + apply (IH (Some (c :: default [] cur))); [|done]. by intros w [= <-].
Qed.

Lemma split_ws_go_nil s : forall cur,
  split_ws_go cur s = [] <-> cur = None /\ forallb is_space s = true.
Proof.
  induction s as [|c s IH]; intros cur; simpl.
  - destruct cur; split; try done. by intros [? _].
  - destruct (is_space c); simpl.
    + destruct cur as [w|]; [split; [done|by intros [? _]]|]. apply IH.
    + rewrite IH. split; [by intros [? _]|by intros [_ ?]].
Qed.

Lemma split_on_head sep s : is_Some (head (split_on sep s)).
Proof.
  destruct s as [|c s]; simpl; [by eexists|].
  destruct (c =? sep); [by eexists|]. destruct (split_on sep s); by eexists.
Qed.

Lemma truthy_cons (v : str) : v <> [] -> truthy (Some v) = true.
Proof. by destruct v. Qed.

Lemma absolute_eq (v : str) :
  v <> [] ->
  match Some v with
  | Some ((_ :: _) as url) =>
      let? img_url := or_raise ValueError (urljoin BASE url) in Ok (Some img_url)
  | _ => Ok None
  end = absolute v.
Proof. by destruct v. Qed.

Lemma img_nothing_attr a :
  truthy (a !! u "src") = false -> truthy (a !! u "data-src") = false ->
  truthy (a !! u "srcset") = false -> img_attr_url a = Ok None.
Proof. unfold img_attr_url. by intros -> -> ->. Qed.

Lemma image_url_nothing c :
  img_yields_nothing c ->
  image_url_of c =
    match bg_url None c with
    | Some ((_ :: _) as url) =>
        let? img_url := or_raise ValueError (urljoin BASE url) in Ok (Some img_url)
    | _ => Ok None
    end.
Proof.
  unfold img_yields_nothing, image_url_of.
  destruct (img_tag c) as [a|]; [|done].
  intros (H1 & H2 & H3). by rewrite img_nothing_attr.
Qed.

(** X7.  The order of the rules for the image URL, where none of them
    raises: a non-empty [src] wins; without it a non-empty [data-src];
    without both, the first white-space-separated token of the first
    comma-separated entry of a non-empty [srcset]; and only when the
    [img] gives nothing, the first [url(...)] of the style of the
    background element, when it is not empty.  What was found is joined
    to the base URL.  When the [img] gives nothing and the style gives
    no non-empty URL, the card has no image. *)
Theorem image_url_rules (c : card) :
  (forall (a : gmap str str) (v : str), img_tag c = Some a ->
     a !! u "src" = Some v -> v <> [] ->
     image_url_of c = absolute v) /\
  (forall (a : gmap str str) (v : str), img_tag c = Some a ->
     truthy (a !! u "src") = false ->
     a !! u "data-src" = Some v -> v <> [] ->
     image_url_of c = absolute v) /\
  (forall (a : gmap str str) (s entry token : str), img_tag c = Some a ->
     truthy (a !! u "src") = false -> truthy (a !! u "data-src") = false ->
     a !! u "srcset" = Some s -> s <> [] ->
     head (split_on COMMA s) = Some entry ->
     head (split_ws entry) = Some token ->
     image_url_of c = absolute token) /\
  (forall (style g : str), img_yields_nothing c ->
     bg c = Some style -> contains (u "background-image") style = true ->
     search_css_url style = Some g -> g <> [] ->
     image_url_of c = absolute g) /\
  (img_yields_nothing c ->
   (bg c = None \/
    exists style, bg c = Some style /\
      (contains (u "background-image") style = false \/
       search_css_url style = None \/ search_css_url style = Some [])) ->
   image_url_of c = Ok None).
Proof.
  split_and!.
  - intros a v Ha Hsrc Hv. unfold image_url_of. rewrite Ha. unfold img_attr_url.
    rewrite Hsrc, (truthy_cons v Hv). cbn [rbind].
    rewrite (truthy_cons v Hv). by apply absolute_eq.
  - intros a v Ha Hsrc Hdata Hv. unfold image_url_of. rewrite Ha.
    unfold img_attr_url. rewrite Hsrc, Hdata, (truthy_cons v Hv). cbn [rbind].
    rewrite (truthy_cons v Hv). by apply absolute_eq.
  - intros a s entry token Ha Hsrc Hdata Hset Hs Hentry Htoken.
    assert (token <> []) as Ht.
    { apply (split_ws_go_nonempty entry None); [done|].
      apply list_elem_of_lookup. exists 0%nat. by rewrite <- head_lookup. }
    unfold image_url_of. rewrite Ha. unfold img_attr_url, index0. unfold str in *.
    rewrite Hsrc, Hdata, Hset. destruct s as [|x s]; [done|].
    cbn [truthy from_option id].
    rewrite Hentry. cbn [or_raise rbind]. rewrite Htoken. cbn [or_raise rbind].
    by destruct token as [|y token].
  - intros style g Hnone Hbg Hcontains Hurl Hg.
    rewrite (image_url_nothing c Hnone). unfold bg_url.
    rewrite Hbg, Hcontains, Hurl. by apply absolute_eq.
  - intros Hnone Hbg. rewrite (image_url_nothing c Hnone). unfold bg_url.
    destruct Hbg as [->|(style & -> & [->|[->| ->]])]; try done;
      by destruct (contains _ _).
Qed.

Lemma img_attr_url_chain (a : gmap str str) :
  img_attr_url a = or_chain (a !! u "src") (a !! u "data-src") (a !! u "srcset").
Proof. reflexivity. Qed.

Lemma or_chain_index_error (src data_src srcset : option str) :
  or_chain src data_src srcset = Raise IndexError <->
  truthy src = false /\ truthy data_src = false /\
  exists s entry : str,
    srcset = Some s /\ s <> [] /\
    head (split_on COMMA s) = Some entry /\ forallb is_space entry = true.
Proof.
  unfold or_chain, index0. split.
  - destruct (truthy src); [done|]. destruct (truthy data_src); [done|].
    destruct srcset as [[|x s]|]; try done. cbn [truthy from_option id].
    destruct (split_on_head COMMA (x :: s)) as [entry Hentry]. rewrite Hentry.
    cbn [or_raise rbind].
    destruct (head (split_ws entry)) as [token|] eqn:Htoken; [done|].
    intros _. split_and!; try done. exists (x :: s), entry. split_and!; try done.
    apply (split_ws_go_nil entry None). unfold split_ws in Htoken.
    by destruct (split_ws_go None entry).
  - intros (-> & -> & s & entry & -> & Hs & Hentry & Hblank).
    destruct s as [|x s]; [done|]. cbn [truthy from_option id].
    rewrite Hentry. cbn [or_raise rbind].
    assert (split_ws entry = []) as -> by (by apply (split_ws_go_nil entry None)).
    done.
Qed.

(** X8.  Resolving the image URL raises [IndexError] in one case only:
    the [img] has no usable [src] and [data-src], and a non-empty
    [srcset] whose first comma-separated entry is empty or white space.
    A background image does not help then. *)
Theorem image_url_index_error (c : card) :
  image_url_of c = Raise IndexError <->
  exists (a : gmap str str) (s entry : str),
    img_tag c = Some a /\
    truthy (a !! u "src") = false /\ truthy (a !! u "data-src") = false /\
    a !! u "srcset" = Some s /\ s <> [] /\
    head (split_on COMMA s) = Some entry /\ forallb is_space entry = true.
Proof.
  assert (forall v : option str,
            match v with
            | Some ((_ :: _) as url) =>
                let? img_url := or_raise ValueError (urljoin BASE url) in
                Ok (Some img_url)
            | _ => Ok None
            end <> Raise IndexError) as Hjoin.
  { intros [[|x v]|]; try done. cbn [rbind]. by destruct (urljoin BASE (x :: v)). }
  unfold image_url_of. split.
  - destruct (img_tag c) as [a|]; [|cbn [rbind]; intros E; by apply Hjoin in E].
    rewrite img_attr_url_chain.
    destruct (or_chain _ _ _) as [v|e] eqn:Hchain;
      [cbn [rbind]; intros E; by apply Hjoin in E|].
    cbn [rbind]. intros [= ->].
    apply or_chain_index_error in Hchain as (Hsrc & Hdata & s & entry & Hset & Hrest).
    by exists a, s, entry.
  - intros (a & s & entry & -> & Hsrc & Hdata & Hset & Hrest).
    rewrite img_attr_url_chain.
    assert (or_chain (a !! u "src") (a !! u "data-src") (a !! u "srcset")
            = Raise IndexError) as ->; [|done].
    apply or_chain_index_error. split_and!; try done. by exists s, entry.
Qed.

End ImageRules.

(* ================================================================= *)
(** ** What a run does to the disk and to the network *)

Section RunFrame.
Context `{Libs} (w : World).

(** A property of the state that every round keeps, for the elements
    of the list, is kept by the loop. *)
Lemma for_each_state {A} (P : state -> Prop) (body : A -> list row -> M (list row))
    (xs : list A) :
  (forall x rows st res st',
     x ∈ xs -> P st -> body x rows st = (res, st') -> P st') ->
  forall rows st res st',
    P st -> for_each body xs rows st = (res, st') -> P st'.
Proof.
  induction xs as [|x xs IH]; intros Hbody rows st res st' HP.
  - by intros [= <- <-].
  - cbn [for_each]. unfold bind.
    destruct (body x rows st) as [[rows1|e] st1] eqn:E.
    + apply IH.
      * intros y ? ? ? ? Hy. apply Hbody. apply elem_of_cons. by right.
      * eapply Hbody; [apply elem_of_cons; by left|done|done].
    + intros [= <- <-]. eapply Hbody; [apply elem_of_cons; by left|done|done].
Qed.

(** The downloads of a run are those of the jobs of the cards of its
    days: a property of the state that each of them keeps holds at the
    end of the run. *)
Lemma run_state (P : state -> Prop) start stop out_dir files res st :
  (forall day mensa c url fpath r st1 res1 st1',
     day ∈ yielded (daterange start stop) ->
     job_of out_dir day mensa c = Ok (Some (url, fpath, r)) ->
     P st1 -> fetch w url fpath st1 = (res1, st1') -> P st1') ->
  P {| fs := files; requests := [] |} ->
  run w start stop out_dir files = (res, st) ->
  P st.
Proof.
  intros Hfetch HP0.
  assert (forall rows st0 res0 st0',
            P st0 ->
            for_each (day_body w out_dir) (yielded (daterange start stop)) rows st0
              = (res0, st0') -> P st0') as Hdays.
  { apply for_each_state. intros day rows st0 res0 st0' Hday HP.
    unfold day_body. destruct (render w _) as [page|]; [|by intros [= <- <-]].
    apply for_each_state; [|done]. clear rows st0 res0 st0' HP.
    intros h2 rows st0 res0 st0' _ HP. unfold heading_body, bind, lift.
    destruct (mensa_of h2) as [mensa|e]; [|by intros [= <- <-]].
    destruct (find_next_div h2) as [cards|]; [|by intros [= <- <-]].
    apply for_each_state; [|done]. clear rows st0 res0 st0' HP.
    intros c rows st0 res0 st0' _ HP. unfold card_body, bind, ret.
    rewrite process_card_job.
    destruct (job_of out_dir day mensa c) as [[[[url fpath] r]|]|e] eqn:Hjob;
      [|by intros [= <- <-]|by intros [= <- <-]].
    destruct (dirs_ok w _ st0); [|by intros [= <- <-]].
    destruct (fetch w url fpath st0) as [[[|]|e] st1] eqn:Hf; intros [= <- <-];
      by eapply (Hfetch day mensa c). }
  unfold run, scrape.
  destruct (daterange start stop) as [days|days|days]; simpl in Hdays.
  - by apply Hdays.
  - unfold bind, raise.
    destruct (for_each (day_body w out_dir) days [] _) as [[rows|e] st1] eqn:E;
      intros [= <- <-]; by eapply Hdays.
  - by apply Hdays.
Qed.

Lemma fetch_left url fpath st res st' :
  fetch w url fpath st = (res, st') ->
  fs st !! fpath = None ->
  fs st' !! fpath = left_by (get w (length (requests st)) url fpath).
Proof.
  unfold fetch. intros Hf Hnone. rewrite Hnone in Hf.
  destruct (get w (length (requests st)) url fpath) as [content| |[content|]];
    injection Hf as <- <-; simpl; by rewrite ?lookup_insert_eq.
Qed.

(** X9.  A run neither removes nor changes a file that was there when
    it started, and every other file there is at its end was left by
    one of its downloads, with the content that download left. *)
Theorem run_keeps_files (start stop : date) (out_dir : Path)
    (files : gmap Path (list byte)) (res : result (list row)) (st : state) :
  run w start stop out_dir files = (res, st) ->
  (forall p content, files !! p = Some content -> fs st !! p = Some content) /\
  (forall p content, fs st !! p = Some content ->
     files !! p = Some content \/
     exists i url,
       requests st !! i = Some (url, p) /\ left_by (get w i url p) = Some content).
Proof.
  apply (run_state (fun st =>
    (forall p content, files !! p = Some content -> fs st !! p = Some content) /\
    (forall p content, fs st !! p = Some content ->
       files !! p = Some content \/
       exists i url,
         requests st !! i = Some (url, p) /\ left_by (get w i url p) = Some content))).
  - intros day mensa c url fpath r st1 res1 st1' _ _ [Hkeep Hnew] Hf.
    destruct (fetch_spec w _ _ _ _ _ Hf)
      as [(_ & _ & ->)|(Hnone & Hlog & Hother & _)]; [done|].
    pose proof (fetch_left _ _ _ _ _ Hf Hnone) as Hleft. split.
    + intros p content Hp. destruct (decide (p = fpath)) as [->|Hne].
      * rewrite (Hkeep _ _ Hp) in Hnone. done.
      * rewrite Hother by done. by apply Hkeep.
    + intros p content Hp. destruct (decide (p = fpath)) as [->|Hne].
      * right. exists (length (requests st1)), url. rewrite Hlog. split.
        -- by rewrite lookup_app_r, Nat.sub_diag by lia.
        -- by rewrite <- Hleft.
      * rewrite Hother in Hp by done.
        destruct (Hnew _ _ Hp) as [?|(i & url' & Hi & Hl)]; [by left|].
        right. exists i, url'. rewrite Hlog. split; [|done].
        apply lookup_app_l_Some. done.
  - split; [done|]. intros p content Hp. by left.
Qed.

Lemma image_url_joined c url :
  image_url_of c = Ok (Some url) -> exists raw, urljoin BASE raw = Some url.
Proof.
  unfold image_url_of, rbind.
  destruct (match img_tag c with Some a => img_attr_url a | None => Ok None end)
    as [v|e]; [|done].
  destruct (if truthy v then v else bg_url v c) as [[|x raw]|]; try done.
  destruct (urljoin BASE (x :: raw)) as [joined|] eqn:E; [|done].
  intros [= <-]. by exists (x :: raw).
Qed.

Lemma file_in_inside day_dir mensa dish_type url fpath :
  file_in day_dir mensa dish_type url = Ok fpath ->
  exists fname, fpath = div day_dir fname.
Proof.
  unfold file_in, rbind. destruct (ext_of url) as [ext|e]; [|done].
  intros [= <-]. by eexists.
Qed.

(** X10.  Every request of a run is for a URL that [urljoin] returned
    for the base URL of the site, and its destination is a file
    directly inside the folder [out_dir/<date>] of one of the days of
    the range. *)
Theorem run_requests_confined (start stop : date) (out_dir : Path)
    (files : gmap Path (list byte)) (res : result (list row)) (st : state) :
  run w start stop out_dir files = (res, st) ->
  forall i url fpath, requests st !! i = Some (url, fpath) ->
    exists day fname raw,
      day ∈ yielded (daterange start stop) /\
      fpath = div (div out_dir (isoformat day)) fname /\
      urljoin BASE raw = Some url.
Proof.
  apply (run_state (fun st =>
    forall i url fpath, requests st !! i = Some (url, fpath) ->
      exists day fname raw,
        day ∈ yielded (daterange start stop) /\
        fpath = div (div out_dir (isoformat day)) fname /\
        urljoin BASE raw = Some url)).
  - intros day mensa c url fpath r st1 res1 st1' Hday Hjob Hold Hf.
    destruct (fetch_spec w _ _ _ _ _ Hf)
      as [(_ & _ & ->)|(_ & Hlog & _)]; [done|].
    intros i url' fpath'. rewrite Hlog. intros Hi.
    apply lookup_app_Some in Hi as [Hi|[_ Hi]]; [by eapply Hold|].
    apply list_lookup_singleton_Some in Hi as [_ [= <- <-]].
    destruct (job_of_row _ _ _ _ _ _ _ Hjob) as (d & _ & Hurl & Hdest & _).
    destruct (image_url_joined _ _ Hurl) as [raw Hraw].
    destruct (file_in_inside _ _ _ _ _ Hdest) as [fname ->].
    by exists day, fname, raw.
  - intros i url fpath. simpl. by rewrite lookup_nil.
Qed.

End RunFrame.

Lemma run_keeps_files_witness :
  fs (snd (@run Ref.libs (Ref.online Ref.menu) Ref.monday Ref.monday [u "images"]
             {[ [u "images"; u "2025-05-12"; u "mensa-academica_hauptgericht.jpg"]
                := [Byte.x42] ]}))
    !! [u "images"; u "2025-05-12"; u "mensa-academica_hauptgericht.jpg"]
  = Some [Byte.x42].
Proof.
  destruct (@run Ref.libs (Ref.online Ref.menu) Ref.monday Ref.monday [u "images"]
              {[ [u "images"; u "2025-05-12"; u "mensa-academica_hauptgericht.jpg"]
                 := [Byte.x42] ]}) as [res st] eqn:Hrun.
  apply (proj1 (@run_keeps_files Ref.libs (Ref.online Ref.menu) _ _ _ _ _ _ Hrun)).
  apply lookup_singleton_eq.
Defined.

Lemma run_requests_confined_witness :
  exists day fname,
    day ∈ [Ref.monday; Ref.sunday] /\
    [u "images"; u "2025-05-11"; u "mensa-academica_hauptgericht.png"]
      = div (div [u "images"] (isoformat day)) fname.
Proof.
  destruct (@run Ref.libs (Ref.online Ref.menu) Ref.monday Ref.sunday [u "images"] ∅)
    as [res st] eqn:Hrun.
  assert (requests st !! 1%nat =
            Some (u "https://mensa.fachschaft.tf/img/curry.png",
                  [u "images"; u "2025-05-11"; u "mensa-academica_hauptgericht.png"]))
    as Hreq.
  { apply (f_equal snd) in Hrun. simpl in Hrun. subst st. vm_compute. reflexivity. }
  destruct (@run_requests_confined Ref.libs (Ref.online Ref.menu) _ _ _ _ _ _ Hrun _ _ _ Hreq)
    as (day & fname & raw & Hday & Hpath & _).
  by exists day, fname.
Defined.

(* ================================================================= *)
(** ** What can end a run *)

Section RunRaises.
Context `{Libs} (w : World).

Lemma for_each_raise {A} (Q : exn -> Prop) (body : A -> list row -> M (list row))
    (xs : list A) :
  (forall x rows st e st', x ∈ xs -> body x rows st = (Raise e, st') -> Q e) ->
  forall rows st e st', for_each body xs rows st = (Raise e, st') -> Q e.
Proof.
  induction xs as [|x xs IH]; intros Hbody rows st e st'; [done|].
  cbn [for_each]. unfold bind.
  destruct (body x rows st) as [[rows1|e1] st1] eqn:E.
  - apply IH. intros y ? ? ? ? Hy. apply Hbody. apply elem_of_cons. by right.
  - intros [= <- <-]. eapply Hbody; [apply elem_of_cons; by left|done].
Qed.

Lemma description_never_raises c e : description_of c <> Raise e.
Proof.
  unfold description_of. destruct (p_tag c) as [strings|]; [|done].
  destruct (List.map strip _); [done|]. by rewrite squash_eq.
Qed.

Lemma mensa_never_raises h2 e : mensa_of h2 <> Raise e.
Proof. unfold mensa_of. by rewrite squash_eq. Qed.

(** Where the body of the card loop raises, the card has a description,
    and [IndexError] and [ValueError] come from its image. *)
Lemma process_card_raise out_dir day mensa c st e st' :
  process_card w out_dir day mensa c st = (Raise e, st') ->
  (exists d, description_of c = Ok (Some d)) /\
  (e = IndexError -> image_url_of c = Raise IndexError) /\
  (e = ValueError ->
   image_url_of c = Raise ValueError \/
   exists url, image_url_of c = Ok (Some url) /\ url_suffix url = None).
Proof.
  unfold process_card, destination, bind, lift, ret.
  destruct (description_of c) as [[d|]|e0] eqn:Hd;
    [|done|by apply description_never_raises in Hd].
  destruct (image_url_of c) as [[url|]|e1] eqn:Hurl; [|done|].
  - rewrite make_dir_ok. destruct (dirs_ok w _ st).
    + unfold file_in, ext_of.
      destruct (url_suffix url) as [suffix|] eqn:Hs; cbn [or_raise rbind].
      * unfold fetch. destruct (fs st !! _); [done|].
        by destruct (get w _ url _) as [?| |[?|]].
      * intros [= <- <-]. split_and!; [by eexists|done|].
        intros _. right. by exists url.
    + intros [= <- <-]. split_and!; [by eexists|done..].
  - intros [= <- <-]. split_and!; [by eexists|by intros ->|].
    intros ->. by left.
Qed.

(** X11.  A run between valid dates that ends in [IndexError] has come
    to a card, on the page of one of its days and in the container of
    one of the headings it selects there, that has a description and
    whose image resolution raises [IndexError] (the blank source set of
    X8).  One that ends in [ValueError] has come to such a card whose
    image reference [urljoin] refuses, or whose joined URL has no
    suffix because parsing it failed. *)
Theorem run_ended_by (start stop : date) (out_dir : Path)
    (files : gmap Path (list byte)) (e : exn) (st : state) :
  valid start -> valid stop ->
  run w start stop out_dir files = (Raise e, st) ->
  (e = IndexError ->
   exists day page h2 cards c d,
     day ∈ yielded (daterange start stop) /\
     render w (DAY_URL (isoformat day)) = Some page /\
     h2 ∈ page /\ h2_selected h2 = true /\ find_next_div h2 = Some cards /\
     c ∈ cards /\ description_of c = Ok (Some d) /\
     image_url_of c = Raise IndexError) /\
  (e = ValueError ->
   exists day page h2 cards c d,
     day ∈ yielded (daterange start stop) /\
     render w (DAY_URL (isoformat day)) = Some page /\
     h2 ∈ page /\ h2_selected h2 = true /\ find_next_div h2 = Some cards /\
     c ∈ cards /\ description_of c = Ok (Some d) /\
     (image_url_of c = Raise ValueError \/
      exists url, image_url_of c = Ok (Some url) /\ url_suffix url = None)).
Proof.
  intros Hs Ht Hrun.
  set (at_card := fun (c : card) (e0 : exn) =>
    (exists d, description_of c = Ok (Some d)) /\
    (e0 = IndexError -> image_url_of c = Raise IndexError) /\
    (e0 = ValueError ->
     image_url_of c = Raise ValueError \/
     exists url, image_url_of c = Ok (Some url) /\ url_suffix url = None)).
  assert (exists day page h2 cards c,
            day ∈ yielded (daterange start stop) /\
            render w (DAY_URL (isoformat day)) = Some page /\
            h2 ∈ page /\ h2_selected h2 = true /\ find_next_div h2 = Some cards /\
            c ∈ cards /\ at_card c e)
    as (day & page & h2 & cards & c & Hday & Hpage & Hh2 & Hsel & Hdiv & Hc
        & [d Hd] & HI & HV).
  { revert Hrun. unfold run, scrape. rewrite (daterange_walk start stop Hs Ht).
    cbn [yielded]. set (days := walk _ _ _).
    apply (for_each_raise (fun e0 =>
      exists day page h2 cards c,
        day ∈ days /\ render w (DAY_URL (isoformat day)) = Some page /\
        h2 ∈ page /\ h2_selected h2 = true /\ find_next_div h2 = Some cards /\
        c ∈ cards /\ at_card c e0)).
    clear st e. intros day rows st e st' Hday.
    unfold day_body. destruct (render w _) as [page|] eqn:Hpage; [|done].
    intros Hloop.
    assert (exists h2 cards c,
              h2 ∈ List.filter h2_selected page /\ find_next_div h2 = Some cards /\
              c ∈ cards /\ at_card c e)
      as (h2 & cards & c & Hh2 & Hdiv & Hc & Hat).
    { revert Hloop.
      apply (for_each_raise (fun e0 =>
        exists h2 cards c,
          h2 ∈ List.filter h2_selected page /\ find_next_div h2 = Some cards /\
          c ∈ cards /\ at_card c e0)).
      clear rows st st' e.
      intros h2 rows st e st' Hh2. unfold heading_body, bind, lift.
      destruct (mensa_of h2) as [mensa|e0] eqn:Hm;
        [|by apply mensa_never_raises in Hm].
      destruct (find_next_div h2) as [cards|] eqn:Hdiv; [|done].
      intros Hloop.
      assert (exists c, c ∈ cards /\ at_card c e) as (c & Hc & Hat).
      { revert Hloop.
        apply (for_each_raise (fun e0 => exists c, c ∈ cards /\ at_card c e0)).
        clear rows st st' e.
        intros c rows st e st' Hc. unfold card_body, bind, ret.
        destruct (process_card w out_dir day mensa c st) as [[r|e1] st1] eqn:Hcard;
          [done|].
        intros [= <- <-]. exists c. split; [done|].
        by apply (process_card_raise _ _ _ _ _ _ _ Hcard). }
      by exists h2, cards, c. }
    exists day, page, h2, cards, c.
    apply list_elem_of_In in Hh2. apply List.filter_In in Hh2 as [Hh2 Hsel].
    split_and!; try done. by apply list_elem_of_In. }
  split.
  - intros He. exists day, page, h2, cards, c, d. split_and!; try done. by apply HI.
  - intros He. exists day, page, h2, cards, c, d. split_and!; try done. by apply HV.
Qed.



End RunRaises.

Lemma run_ended_by_witness :
  exists c, @image_url_of Ref.libs c = Raise IndexError.
Proof.
  assert (valid Ref.monday) as Hv
    by (unfold valid, MINORDINAL, MAXORDINAL, Ref.monday; lia).
  destruct (@run Ref.libs
              (Ref.online (fun _ => Some [Ref.academica [Ref.pasta_card;
                                                          Ref.blank_srcset_card]]))
              Ref.monday Ref.monday [u "images"] ∅) as [res st] eqn:Hrun.
  assert (res = Raise IndexError) as ->.
  { apply (f_equal fst) in Hrun. vm_compute in Hrun. by subst res. }
  destruct (@run_ended_by Ref.libs _ _ _ _ _ _ _ Hv Hv Hrun) as [Hindex _].
  destruct (Hindex eq_refl) as (_ & _ & _ & _ & c & _ & _ & _ & _ & _ & _ & _ & _ & Hc).
  by exists c.
Defined.


(* ================================================================= *)
(** ** The span that the command line chooses *)

Section Span.
Local Open Scope Z_scope.
Variable fromisoformat : str -> option date.

Lemma walk_one step step' d : walk step d 1 = walk step' d 1.
Proof. done. Qed.

(** X13.  With neither date on the command line (or both empty), the
    span starts today and stops [days_back - 1] days before it.  The
    program goes on exactly when that day is a valid date.  It then
    scrapes [days_back] days from today backward when [days_back] is
    at least 1; for [days_back] of 0 or less it scrapes
    [2 - days_back] days from today forward, never no day at all. *)
Theorem days_back_span (today : date) (a : args) :
  valid today ->
  truthy (arg_start a) = false -> truthy (arg_stop a) = false ->
  let stop := today - (days_back a - 1) in
  (~ valid stop -> choose_span fromisoformat today a = OutOfRange) /\
  (valid stop ->
     choose_span fromisoformat today a = Span today stop /\
     (1 <= days_back a ->
        daterange today stop = Complete (walk (-1) today (Z.to_nat (days_back a)))) /\
     (days_back a <= 0 ->
        daterange today stop = Complete (walk 1 today (Z.to_nat (2 - days_back a))))).
Proof.
  intros Hv Hs Ht stop. unfold choose_span. rewrite Hs, Ht. cbn [orb].
  unfold timedelta_days, date_sub, date_add.
  unfold valid, MINORDINAL, MAXORDINAL in *. split.
  - intros Hn. destruct (Z.abs _ <=? _); [|done].
    replace (today + - (days_back a - 1)) with stop by (unfold stop; lia).
    destruct (0 <? stop) eqn:E1; [|done]. destruct (stop <=? 3652059) eqn:E2; [|done].
    exfalso. apply Hn. lia.
  - intros Hstop. split; [|split].
    + destruct (Z.abs _ <=? _) eqn:E; [|unfold stop in Hstop; lia].
      replace (today + - (days_back a - 1)) with stop by (unfold stop; lia).
      destruct (0 <? stop) eqn:E1; [|lia]. destruct (stop <=? 3652059) eqn:E2; [|lia].
      done.
    + intros Hn. rewrite daterange_walk by done. f_equal.
      unfold span_days, direction.
      replace (S (Z.to_nat (Z.abs (stop - today)))) with (Z.to_nat (days_back a))
        by (unfold stop; lia).
      destruct (today <=? stop) eqn:E; [|done].
      replace (Z.to_nat (days_back a)) with 1%nat by (unfold stop in E; lia).
      apply walk_one.
    + intros Hn. rewrite daterange_walk by done. f_equal.
      unfold span_days, direction.
      replace (S (Z.to_nat (Z.abs (stop - today)))) with (Z.to_nat (2 - days_back a))
        by (unfold stop; lia).
      destruct (today <=? stop) eqn:E; [done|]. unfold stop in E. lia.
Qed.

(** X14.  The program stops with the message about both dates exactly
    when one of the two dates is given and the other is missing or
    empty.  When both are given, neither today's date nor [days_back]
    has any effect on the span, and a span is chosen exactly when both
    dates parse; its ends are then the two parsed dates, in the order
    given. *)
Theorem dates_given_span (today : date) (a : args) :
  (choose_span fromisoformat today a = SpecifyBoth <->
   truthy (arg_start a) <> truthy (arg_stop a)) /\
  forall (s t : str),
    arg_start a = Some s -> arg_stop a = Some t -> s <> [] -> t <> [] ->
    (forall today' n,
       choose_span fromisoformat today'
         {| arg_start := Some s; arg_stop := Some t; days_back := n |}
       = choose_span fromisoformat today a) /\
    (forall start stop,
       choose_span fromisoformat today a = Span start stop <->
       fromisoformat s = Some start /\ fromisoformat t = Some stop) /\
    (choose_span fromisoformat today a = BadDate <->
     fromisoformat s = None \/ fromisoformat t = None).
Proof.
  split.
  - unfold choose_span, timedelta_days, date_sub, date_add.
    destruct (truthy (arg_start a)), (truthy (arg_stop a)); cbn [orb andb negb];
      try (split; [done|congruence]).
    + split; [|congruence].
      destruct (fromisoformat _); [|done]. by destruct (fromisoformat _).
    + split; [|congruence]. destruct (_ <=? _); [|done].
      by destruct (_ && _).
  - intros s t Hs Ht Hs0 Ht0. unfold choose_span. rewrite Hs, Ht.
    destruct s as [|x s]; [done|]. destruct t as [|y t]; [done|].
    cbn [truthy orb andb negb from_option id arg_start arg_stop].
    split; [done|].
    destruct (fromisoformat (x :: s)) as [d1|], (fromisoformat (y :: t)) as [d2|];
      (split; [intros start stop; split; [intros [= <- <-]|intros [[= <-] [= <-]]]; done
              |split; [done|intros [?|?]; done]]) ||
      (split; [intros start stop; split; [done|intros [? ?]; done]
              |split; [intros _|done]; auto]).
Qed.

End Span.

Lemma days_back_span_witness :
  daterange Ref.monday (Ref.monday + 1)%Z = Complete [Ref.monday; (Ref.monday + 1)%Z].
Proof.
  assert (valid Ref.monday) as Hv
    by (unfold valid, MINORDINAL, MAXORDINAL, Ref.monday; lia).
  assert (valid (Ref.monday - (0 - 1))%Z) as Hv'
    by (unfold valid, MINORDINAL, MAXORDINAL, Ref.monday; lia).
  destruct (days_back_span (fun _ => None) Ref.monday
              {| arg_start := None; arg_stop := Some []; days_back := 0 |}
              Hv eq_refl eq_refl) as [_ Hspan].
  destruct (Hspan Hv') as (_ & _ & Hforward).
  apply Hforward. simpl. lia.
Defined.

(* ================================================================= *)
(** ** The size that is reported *)

Section FolderSize.
Context `{Libs} (w : World).

Lemma folder_size_insert (files : gmap Path (list byte)) path p content :
  files !! p = None ->
  folder_size (<[p := content]> files) path
  = (folder_size files path + if below path p then length content else 0)%nat.
Proof.
  intros Hnone. unfold folder_size. rewrite map_fold_insert_L; [|..|done].
  - destruct (below path p); lia.
  - intros j1 j2 z1 z2 y _ _ _. destruct (below path j1), (below path j2); lia.
Qed.

Lemma below_div path a b : below path (div (div path a) b) = true.
Proof.
  unfold below, div. rewrite <- app_assoc. apply andb_true_intro. split.
  - apply Nat.ltb_lt. rewrite length_app. simpl. lia.
  - apply bool_decide_eq_true. apply take_app_length.
Qed.

Lemma downloaded_snoc log : forall n url fpath,
  downloaded w n (log ++ [(url, fpath)])
  = (downloaded w n log
     + from_option length 0 (left_by (get w (n + length log) url fpath)))%nat.
Proof.
  induction log as [|[url0 fpath0] log IH]; intros n url fpath; simpl.
  - replace (n + 0)%nat with n by lia. lia.
  - rewrite IH. replace (S n + length log)%nat with (n + S (length log))%nat by lia.
    lia.
Qed.

(** X15.  The size of the image folder after a run is its size before
    the run plus the bytes that the downloads of the run left there,
    those of the writes that failed half way included. *)
Theorem folder_size_after_run (start stop : date) (out_dir : Path)
    (files : gmap Path (list byte)) (res : result (list row)) (st : state) :
  run w start stop out_dir files = (res, st) ->
  folder_size (fs st) out_dir
  = (folder_size files out_dir + downloaded w 0 (requests st))%nat.
Proof.
  apply (run_state w (fun st =>
    folder_size (fs st) out_dir
    = (folder_size files out_dir + downloaded w 0 (requests st))%nat)).
  - intros day mensa c url fpath r st1 res1 st1' _ Hjob HP.
    assert (below out_dir fpath = true) as Hbelow.
    { unfold job_of in Hjob.
      destruct (description_of c) as [[d|]|]; try done. cbn [rbind] in Hjob.
      destruct (image_url_of c) as [[url0|]|]; try done. cbn [rbind] in Hjob.
      destruct (file_in _ _ _ _) as [p|] eqn:Hd; [|done].
      apply file_in_inside in Hd as [fname ->].
      injection Hjob as _ <- _. apply below_div. }
    unfold fetch. destruct (fs st1 !! fpath) eqn:Hnone; [by intros [= _ <-]|].
    destruct (get w (length (requests st1)) url fpath) as [content| |[content|]] eqn:Hget;
      intros [= _ <-]; cbn [fs requests]; rewrite downloaded_snoc; cbn [Nat.add];
      rewrite Hget; cbn [left_by from_option];
      rewrite ?folder_size_insert, ?Hbelow by done; lia.
  - simpl. lia.
Qed.

End FolderSize.

Lemma folder_size_after_run_witness :
  folder_size (fs (snd (@run Ref.libs (Ref.online Ref.menu) Ref.monday Ref.monday
                          [u "images"] ∅))) [u "images"]
  = (folder_size ∅ [u "images"]
     + downloaded (Ref.online Ref.menu) 0
         (requests (snd (@run Ref.libs (Ref.online Ref.menu) Ref.monday Ref.monday
                           [u "images"] ∅))))%nat.
Proof.
  apply (@folder_size_after_run Ref.libs (Ref.online Ref.menu) Ref.monday Ref.monday
           [u "images"] ∅ _ _ (surjective_pairing _)).
Defined.

(* ================================================================= *)
(** ** The size as it is printed *)

Section Human.
Local Open Scope Z_scope.

Lemma round_half_even_near num den :
  0 < den -> 0 <= num ->
  0 <= round_half_even num den /\
  2 * Z.abs (num - round_half_even num den * den) <= den.
Proof.
  intros Hd Hn. unfold round_half_even.
  pose proof (Z.div_mod num den ltac:(lia)) as E.
  pose proof (Z.mod_pos_bound num den Hd) as B.
  pose proof (Z.div_pos num den Hn Hd) as Q.
  set (q := num / den) in *. set (r := num mod den) in *.
  destruct (2 * r <? den) eqn:E1; [split; [lia|nia]|].
  destruct (den <? 2 * r) eqn:E2; [split; [lia|nia]|].
  destruct (Z.even q); split; try lia; nia.
Qed.

(** X16.  For a size below [2^53] bytes [human] prints a number with
    one decimal and then a unit.  The unit is the first of B, KB, MB,
    GB whose next power of 1024 is above the size, and TB for every
    size from [1024^4] on.  The number is the size in that unit to the
    nearest tenth.  Below TB it is at most 1024.0, a value that sizes
    just under the next unit do give. *)
Theorem human_unit_and_error (n : Z) :
  0 <= n < 2 ^ 53 ->
  exists (k : nat) (t : Z),
    human n = format_tenths t ++ u " " ++ nth k (UNITS ++ [u "TB"]) [] /\
    (k <= 4)%nat /\
    ((k < 4)%nat -> n < 1024 ^ (Z.of_nat k + 1)) /\
    ((0 < k)%nat -> 1024 ^ Z.of_nat k <= n) /\
    0 <= t /\
    2 * Z.abs (10 * n - t * 1024 ^ Z.of_nat k) <= 1024 ^ Z.of_nat k /\
    ((k < 4)%nat -> t <= 10240).
Proof.
  intros Hn. unfold human, UNITS. cbn [human_go].
  change (2 ^ 53) with 9007199254740992 in Hn.
  change (1 * 1024 * 1024 * 1024 * 1024) with 1099511627776.
  change (1 * 1024 * 1024 * 1024) with 1073741824.
  change (1 * 1024 * 1024) with 1048576.
  change (1 * 1024) with 1024.
  destruct (n <? 1024 * 1) eqn:E0.
  { destruct (round_half_even_near (10 * n) 1) as [H0 H1]; [lia..|].
    exists 0%nat, (round_half_even (10 * n) 1).
    change (1024 ^ Z.of_nat 0) with 1. change (1024 ^ (Z.of_nat 0 + 1)) with 1024.
    split_and!; try done; try lia. }
  destruct (n <? 1024 * 1024) eqn:E1.
  { destruct (round_half_even_near (10 * n) 1024) as [H0 H1]; [lia..|].
    exists 1%nat, (round_half_even (10 * n) 1024).
    change (1024 ^ Z.of_nat 1) with 1024. change (1024 ^ (Z.of_nat 1 + 1)) with 1048576.
    split_and!; try done; try lia. }
  destruct (n <? 1024 * 1048576) eqn:E2.
  { destruct (round_half_even_near (10 * n) 1048576) as [H0 H1]; [lia..|].
    exists 2%nat, (round_half_even (10 * n) 1048576).
    change (1024 ^ Z.of_nat 2) with 1048576.
    change (1024 ^ (Z.of_nat 2 + 1)) with 1073741824.
    split_and!; try done; try lia. }
  destruct (n <? 1024 * 1073741824) eqn:E3.
  { destruct (round_half_even_near (10 * n) 1073741824) as [H0 H1]; [lia..|].
    exists 3%nat, (round_half_even (10 * n) 1073741824).
    change (1024 ^ Z.of_nat 3) with 1073741824.
    change (1024 ^ (Z.of_nat 3 + 1)) with 1099511627776.
    split_and!; try done; try lia. }
  destruct (round_half_even_near (10 * n) 1099511627776) as [H0 H1]; [lia..|].
  exists 4%nat, (round_half_even (10 * n) 1099511627776).
  change (1024 ^ Z.of_nat 4) with 1099511627776.
  split_and!; try done; try lia.
Qed.

End Human.

Lemma human_unit_and_error_witness :
  human 1048575 = u "1024.0 KB" /\
  exists (k : nat) (t : Z),
    human 1048575 = format_tenths t ++ u " " ++ nth k (UNITS ++ [u "TB"]) [] /\
    (k <= 4)%nat /\
    ((k < 4)%nat -> 1048575 < 1024 ^ (Z.of_nat k + 1))%Z /\
    ((0 < k)%nat -> 1024 ^ Z.of_nat k <= 1048575)%Z /\
    (0 <= t)%Z /\
    (2 * Z.abs (10 * 1048575 - t * 1024 ^ Z.of_nat k) <= 1024 ^ Z.of_nat k)%Z /\
    ((k < 4)%nat -> t <= 10240)%Z.
Proof.
  split; [reflexivity|]. apply human_unit_and_error. split; [lia|reflexivity].
Defined.

(* ================================================================= *)
(** ** The URL in a style *)

Section StyleUrl.
Local Open Scope N_scope.

Lemma startswith_app p s : startswith p s = true -> s = p ++ drop (length p) s.
Proof.
  revert s. induction p as [|a p IH]; intros [|b s]; simpl; try done.
  intros [->%N.eqb_eq Hp]%andb_prop. f_equal. by apply IH.
Qed.

Lemma startswith_self p s : startswith p (p ++ s) = true.
Proof. induction p as [|a p IH]; [done|]. simpl. by rewrite N.eqb_refl. Qed.

Lemma quote_chars c : is_quote c = true -> c <> 0x29 /\ c <> NEWLINE.
Proof.
  unfold is_quote. intros [->%N.eqb_eq | ->%N.eqb_eq]%orb_prop; by split.
Qed.

Lemma opt_quote_chars q c : opt_quote q -> c ∈ q -> is_quote c = true.
Proof.
  intros [->|(x & -> & Hx)]; [by intros ?%elem_of_nil|].
  by intros ->%list_elem_of_singleton.
Qed.

(** The lazy group is the text up to the first closing parenthesis of
    the line, without the quote that may stand before it. *)
Lemma lazy_group_sound s g :
  lazy_group s = Some g ->
  (0x29 ∉ g) /\ (NEWLINE ∉ g) /\
  exists q post,
    opt_quote q /\ s = g ++ q ++ [0x29] ++ post /\
    (q = [] -> forall c, last g = Some c -> is_quote c = false).
Proof.
  revert g. induction s as [|c s IH]; intros g; [done|]. cbn [lazy_group].
  destruct (c =? 0x29) eqn:Ec.
  { intros [= <-]. apply N.eqb_eq in Ec as ->. split_and!; [by inversion 1..|].
    exists [], s. split_and!; [by left|done|done]. }
  destruct (is_quote c && startswith [0x29] s) eqn:Eq.
  { intros [= <-]. apply andb_prop in Eq as [Hq Hs].
    apply startswith_app in Hs. split_and!; [by inversion 1..|].
    exists [c], (drop 1 s). split_and!; [right; by exists c| |done].
    simpl in *. by f_equal. }
  destruct (c =? NEWLINE) eqn:En; [done|].
  destruct (lazy_group s) as [g'|]; [|done]. intros [= <-].
  destruct (IH g' eq_refl) as (H1 & H2 & q & post & Hq & -> & Hlast).
  apply N.eqb_neq in Ec, En. split_and!.
  - intros [?|?]%elem_of_cons; [by subst|done].
  - intros [?|?]%elem_of_cons; [by subst|done].
  - exists q, post. split_and!; [done|done|]. intros -> x.
    destruct g' as [|y g'].
    + intros [= <-].
      change (startswith [0x29] ([] ++ [] ++ [0x29] ++ post)) with true in Eq.
      by rewrite andb_true_r in Eq.
    + change (last (c :: y :: g')) with (last (y :: g')). by apply Hlast.
Qed.

Lemma lazy_group_exact g q post :
  0x29 ∉ g -> NEWLINE ∉ g -> opt_quote q ->
  (q = [] -> forall c, last g = Some c -> is_quote c = false) ->
  lazy_group (g ++ q ++ [0x29] ++ post) = Some g.
Proof.
  intros Hp Hn Hq. induction g as [|c g IH]; intros Hlast.
  - destruct Hq as [->|(x & -> & Hx)]; [done|].
    destruct (quote_chars x Hx) as [Hx1 _]. cbn [app lazy_group].
    apply N.eqb_neq in Hx1. by rewrite Hx1, Hx.
  - apply not_elem_of_cons in Hp as [Hc Hp]. apply not_elem_of_cons in Hn as [Hcn Hn].
    change ((c :: g) ++ q ++ [0x29] ++ post) with (c :: (g ++ q ++ [0x29] ++ post)).
    cbn [lazy_group].
    replace (c =? 0x29) with false by (symmetry; by apply N.eqb_neq).
    replace (c =? NEWLINE) with false by (symmetry; by apply N.eqb_neq).
    assert (is_quote c && startswith [0x29] (g ++ q ++ [0x29] ++ post) = false) as ->.
    { destruct g as [|y g].
      - destruct Hq as [->|(x & -> & Hx)].
        + rewrite (Hlast eq_refl c eq_refl). done.
        + destruct (quote_chars x Hx) as [Hx1 _].
          change (startswith [0x29] ([] ++ [x] ++ [0x29] ++ post))
            with ((0x29 =? x) && true).
          replace (0x29 =? x) with false by (symmetry; apply N.eqb_neq; congruence).
          apply andb_false_r.
      - apply not_elem_of_cons in Hp as [Hy _].
        change (startswith [0x29] ((y :: g) ++ q ++ [0x29] ++ post))
          with ((0x29 =? y) && true).
        replace (0x29 =? y) with false by (symmetry; apply N.eqb_neq; congruence).
        apply andb_false_r. }
    rewrite IH; [done|done|done|].
    intros -> x Hx. apply (Hlast eq_refl). destruct g; [done|exact Hx].
Qed.

Lemma lazy_group_complete mid post :
  NEWLINE ∉ mid -> is_Some (lazy_group (mid ++ 0x29 :: post)).
Proof.
  induction mid as [|c mid IH]; intros Hn; [by eexists|].
  change ((c :: mid) ++ 0x29 :: post) with (c :: (mid ++ 0x29 :: post)).
  cbn [lazy_group].
  destruct (c =? 0x29); [by eexists|].
  destruct (is_quote c && _); [by eexists|].
  destruct (c =? NEWLINE) eqn:En.
  { apply N.eqb_eq in En as ->. exfalso. apply Hn. apply elem_of_cons. by left. }
  destruct IH as [g ->]; [|by eexists].
  intros ?. apply Hn. apply elem_of_cons. by right.
Qed.

(** A quote that is taken is never given back. *)
Lemma lazy_group_after_quote c s :
  is_quote c = true -> lazy_group s = None -> lazy_group (c :: s) = None.
Proof.
  intros Hc Hs. destruct (quote_chars c Hc) as [H1 H2]. cbn [lazy_group].
  apply N.eqb_neq in H1, H2. rewrite H1, H2, Hc, Hs.
  destruct s as [|x s]; [done|].
  change (startswith [0x29] (x :: s)) with ((0x29 =? x) && true).
  destruct (0x29 =? x) eqn:Ex; [|done].
  apply N.eqb_eq in Ex as <-. done.
Qed.

Lemma url_group_sound s g :
  url_group s = Some g ->
  (0x29 ∉ g) /\ (NEWLINE ∉ g) /\
  exists q1 q2 post,
    s = q1 ++ g ++ q2 ++ [0x29] ++ post /\
    opt_quote q1 /\
    (q1 = [] -> forall c, head (g ++ q2 ++ [0x29]) = Some c -> is_quote c = false) /\
    opt_quote q2 /\
    (q2 = [] -> forall c, last g = Some c -> is_quote c = false).
Proof.
  destruct s as [|c s]; [done|]. cbn [url_group].
  destruct (is_quote c) eqn:Hc.
  - destruct (lazy_group s) as [g'|] eqn:Hg.
    + intros [= <-].
      apply lazy_group_sound in Hg as (H1 & H2 & q & post & Hq & -> & Hlast).
      split_and!; try done. exists [c], q, post.
      split_and!; [done|right; by exists c|done|done|done].
    + by rewrite lazy_group_after_quote.
  - intros (H1 & H2 & q & post & Hq & Hs & Hlast)%lazy_group_sound.
    split_and!; try done. exists [], q, post.
    split_and!; [done|by left| |done|done].
    intros _ x Hx.
    destruct g as [|y g]; [destruct q as [|z q]|]; cbn [app head] in Hs, Hx;
      injection Hs as Hs _; injection Hx as Hx; by subst.
Qed.

Lemma url_group_exact q1 g q2 post :
  opt_quote q1 ->
  (q1 = [] -> forall c, head (g ++ q2 ++ [0x29]) = Some c -> is_quote c = false) ->
  0x29 ∉ g -> NEWLINE ∉ g -> opt_quote q2 ->
  (q2 = [] -> forall c, last g = Some c -> is_quote c = false) ->
  url_group (q1 ++ g ++ q2 ++ [0x29] ++ post) = Some g.
Proof.
  intros Hq1 Hhead Hp Hn Hq2 Hlast.
  pose proof (lazy_group_exact g q2 post Hp Hn Hq2 Hlast) as Hg.
  destruct Hq1 as [->|(c & -> & Hc)].
  - change ([] ++ g ++ q2 ++ [0x29] ++ post) with (g ++ q2 ++ [0x29] ++ post).
    destruct (g ++ q2 ++ [0x29] ++ post) as [|x s] eqn:Hs.
    { by destruct g, q2. }
    cbn [url_group]. rewrite (Hhead eq_refl x); [by rewrite <- Hs|].
    destruct g as [|y g]; [destruct q2 as [|z q2]|]; by injection Hs as -> _.
  - change ([c] ++ g ++ q2 ++ [0x29] ++ post) with (c :: (g ++ q2 ++ [0x29] ++ post)).
    cbn [url_group]. rewrite Hc. unfold str, char in *. by rewrite Hg.
Qed.

Lemma url_group_closable rest g : url_group rest = Some g -> closable rest.
Proof.
  intros (H1 & H2 & q1 & q2 & post & -> & Hq1 & _ & Hq2 & _)%url_group_sound.
  exists (q1 ++ g ++ q2), post. split; [by rewrite <- !app_assoc|].
  intros [Hc|[Hc|Hc]%elem_of_app]%elem_of_app; [|done|].
  - by destruct (quote_chars _ (opt_quote_chars _ _ Hq1 Hc)).
  - by destruct (quote_chars _ (opt_quote_chars _ _ Hq2 Hc)).
Qed.

Lemma url_group_complete rest : closable rest -> is_Some (url_group rest).
Proof.
  intros (mid & post & -> & Hn). destruct mid as [|c mid].
  - by eexists.
  - change ((c :: mid) ++ [0x29] ++ post) with (c :: (mid ++ 0x29 :: post)).
    cbn [url_group]. destruct (is_quote c).
    + destruct (lazy_group_complete mid post) as [g ->]; [|by eexists].
      intros ?. apply Hn. apply elem_of_cons. by right.
    + by apply (lazy_group_complete (c :: mid) post).
Qed.

Lemma search_css_url_step c s :
  search_css_url (c :: s) =
  match (if startswith (u "url(") (c :: s) then url_group (drop 4 (c :: s)) else None) with
  | Some g => Some g
  | None => search_css_url s
  end.
Proof. done. Qed.

Lemma search_css_url_here rest :
  search_css_url (u "url(" ++ rest) =
  match url_group rest with
  | Some g => Some g
  | None => search_css_url (drop 1 (u "url(" ++ rest))
  end.
Proof.
  change (u "url(" ++ rest) with (0x75 :: (0x72 :: 0x6C :: 0x28 :: rest)) at 1.
  rewrite search_css_url_step.
  change (0x75 :: 0x72 :: 0x6C :: 0x28 :: rest) with (u "url(" ++ rest).
  rewrite startswith_self. done.
Qed.

(** X17.  The style pattern gives the URL [g] exactly when the style
    can be cut around [g] in this way: [g] stands behind the first
    [url(] that has a closing parenthesis behind it on the same line,
    after the quote that may follow that [url(], and reaches to the
    first closing parenthesis, without the quote that may stand right
    before it.  So [g] has no closing parenthesis and no newline in it
    (a URL with a parenthesis of its own is cut there), and a URL is
    found whenever some [url(] can be closed. *)
Theorem style_url_shape (style : str) :
  (forall g,
     search_css_url style = Some g <->
     exists pre q1 q2 post, url_cut style pre q1 g q2 post) /\
  (is_Some (search_css_url style) <->
   exists pre rest, style = pre ++ u "url(" ++ rest /\ closable rest).
Proof.
  assert (forall g, search_css_url style = Some g ->
            exists pre q1 q2 post, url_cut style pre q1 g q2 post) as Hsound.
  { induction style as [|c s IH]; intros g; [done|]. rewrite search_css_url_step.
    destruct (startswith (u "url(") (c :: s)) eqn:Hstart.
    - apply startswith_app in Hstart. change (length (u "url(")) with 4%nat in Hstart.
      destruct (url_group (drop 4 (c :: s))) as [g'|] eqn:Hg.
      + intros [= <-].
        destruct (url_group_sound _ _ Hg)
          as (H1 & H2 & q1 & q2 & post & Hs & Hq1 & Hhead & Hq2 & Hlast).
        exists [], q1, q2, post. unfold url_cut. split_and!; try done.
        * rewrite Hstart at 1. by rewrite Hs.
        * intros pre' rest _ Hlen. simpl in Hlen. lia.
      + intros (pre & q1 & q2 & post & Hs & Hfirst & Hrest)%IH.
        exists (c :: pre), q1, q2, post. split; [by rewrite Hs|]. split; [|done].
        intros [|c' pre'] rest Heq Hlen.
        * intros Hcl%url_group_complete.
          change ([] ++ u "url(" ++ rest) with (u "url(" ++ rest) in Heq.
          rewrite Hstart in Heq. apply app_inv_head in Heq.
          rewrite <- Heq, Hg in Hcl. by destruct Hcl.
        * injection Heq as -> Heq. apply (Hfirst pre' rest Heq). simpl in Hlen. lia.
    - intros (pre & q1 & q2 & post & Hs & Hfirst & Hrest)%IH.
      exists (c :: pre), q1, q2, post. split; [by rewrite Hs|]. split; [|done].
      intros [|c' pre'] rest Heq Hlen.
      + cbn [app] in Heq. rewrite Heq, startswith_self in Hstart. done.
      + injection Heq as -> Heq. apply (Hfirst pre' rest Heq). simpl in Hlen. lia. }
  assert (forall pre tail g,
            (forall pre' rest,
               pre ++ u "url(" ++ tail = pre' ++ u "url(" ++ rest ->
               (length pre' < length pre)%nat -> ~ closable rest) ->
            url_group tail = Some g ->
            search_css_url (pre ++ u "url(" ++ tail) = Some g) as Hexact.
  { clear Hsound. intros pre tail g. induction pre as [|c pre IH]; intros Hfirst Hg.
    - cbn [app]. by rewrite search_css_url_here, Hg.
    - change ((c :: pre) ++ u "url(" ++ tail) with (c :: (pre ++ u "url(" ++ tail)).
      rewrite search_css_url_step.
      destruct (startswith (u "url(") (c :: pre ++ u "url(" ++ tail)) eqn:Hstart.
      + apply startswith_app in Hstart. change (length (u "url(")) with 4%nat in Hstart.
        destruct (url_group (drop 4 _)) as [g'|] eqn:Hg'.
        * exfalso. apply (Hfirst [] (drop 4 (c :: pre ++ u "url(" ++ tail))).
          -- exact Hstart.
          -- simpl. lia.
          -- by eapply url_group_closable.
        * apply IH; [|done]. intros pre' rest Heq Hlen.
          apply (Hfirst (c :: pre') rest); [exact (f_equal (cons c) Heq)|simpl; lia].
      + apply IH; [|done]. intros pre' rest Heq Hlen.
        apply (Hfirst (c :: pre') rest); [exact (f_equal (cons c) Heq)|simpl; lia]. }
  split.
  - intros g. split; [apply Hsound|].
    intros (pre & q1 & q2 & post & -> & Hfirst & Hq1 & Hhead & Hp & Hn & Hq2 & Hlast).
    apply Hexact; [done|]. by apply url_group_exact.
  - split.
    + intros [g Hg]. destruct (Hsound g Hg) as (pre & q1 & q2 & post & Hcut).
      destruct Hcut as (-> & _ & Hq1 & _ & _ & Hn & Hq2 & _).
      exists pre, (q1 ++ g ++ q2 ++ [0x29] ++ post). split; [done|].
      exists (q1 ++ g ++ q2), post. split; [by rewrite <- !app_assoc|].
      intros [Hc|[Hc|Hc]%elem_of_app]%elem_of_app; [|done|].
      * by destruct (quote_chars _ (opt_quote_chars _ _ Hq1 Hc)).
      * by destruct (quote_chars _ (opt_quote_chars _ _ Hq2 Hc)).
    + intros (pre & rest & -> & Hcl). clear Hsound Hexact.
      induction pre as [|c pre IH].
      * cbn [app]. rewrite search_css_url_here.
        destruct (url_group_complete rest Hcl) as [g ->]. by eexists.
      * change ((c :: pre) ++ u "url(" ++ rest) with (c :: (pre ++ u "url(" ++ rest)).
        rewrite search_css_url_step.
        destruct (if startswith _ _ then _ else _); [by eexists|]. apply IH.
Qed.

End StyleUrl.
